(** * Verification of the HttpClient integration and the DOM breadcrumb handler

    Shallow embedding of
    - [packages/integrations/src/httpclient.ts] (class [HttpClient]), and
    - [src/coreHandlers/handleDom.ts] (function [handleDom]),
    together with the [BreadcrumbRing] component that the specification
    describes but the sources do not contain.

    The definitions come first (one module per source file), the
    properties follow. *)

From stdpp Require Import base option list strings gmap pretty.
From Stdlib Require Import ZArith Ascii String QArith.
Open Scope Z_scope.
Open Scope string_scope.

Abbreviation JsObj := (gmap string (option string)).

(** ** ECMAScript values and built-ins used by the sources

    A string is the sequence of its code units, each below 256: this is
    what header names and values are (the platform decodes the bytes of a
    header one to one), and serialized URLs are ASCII. *)
Module Js.

(** A thrown JavaScript value, identified by its message. *)
Definition Exn : Type := string.

(** Outcome of evaluating an expression: a value or a thrown exception. *)
Inductive Completion (A : Type) : Type :=
| Normal (a : A)
| Throw (e : Exn).
Arguments Normal {A} a.
Arguments Throw {A} e.

(** The result of [parseInt], a double: [NaN]; [Num z], the double equal
    to the integer [z] ([Num 0] is +0); [NegZero], -0; and [Approx z] for
    an integer of more than 20 significant digits, where the language
    leaves the rounding of [z] to the implementation. *)
Inductive JsNumber : Type :=
| NaN
| Num (z : Z)
| NegZero
| Approx (z : Z).

(** Argument values that the wrappers only pass along. [VRef] is an opaque
    object reference. *)
Inductive JsVal : Type :=
| VUndefined
| VNull
| VBool (b : bool)
| VNum (z : Z)
| VStr (s : string)
| VRef (id : nat).

(** Truthiness of a string: every string but the empty one. *)
Definition truthy (s : string) : bool :=
  match s with
  | EmptyString => false
  | String _ _ => true
  end.

(** [a || b] where [a] and [b] are of type [string | undefined]. *)
Definition or_else (a b : option string) : option string :=
  match a with
  | Some s => if truthy s then a else b
  | None => b
  end.

Definition truthy_opt (a : option string) : bool :=
  match a with
  | Some s => truthy s
  | None => false
  end.

(** The objects of type [Record<string, string>] are plain objects: they
    start as [{}] and inherit from [Object.prototype], whose members, where
    no script has added to them, are these. Of them only ['__proto__'] is
    an accessor; the others are writable data properties, which an
    assignment shadows with an own property. *)
Definition object_prototype_names : list string :=
  ["__proto__"; "constructor"; "hasOwnProperty"; "isPrototypeOf";
   "propertyIsEnumerable"; "toLocaleString"; "toString"; "valueOf";
   "__defineGetter__"; "__defineSetter__"; "__lookupGetter__"; "__lookupSetter__"].

(** [obj[key] = value] for a string or [undefined] as value. Under the name
    ['__proto__'] the assignment reaches the setter of [Object.prototype],
    which ignores a value that is neither an object nor [null]; under every
    other name it creates or updates an own property. *)
Definition assign (obj : JsObj) (key : string) (value : option string) : JsObj :=
  if String.eqb key "__proto__" then obj else <[key := value]> obj.

(** What [obj[key]] evaluates to: an own property, else a member of
    [Object.prototype], else [undefined]. *)
Inductive Read : Type :=
| ReadUndefined
| ReadString (s : string)
| ReadInherited.

Definition read (obj : JsObj) (key : string) : Read :=
  match obj !! key with
  | Some (Some s) => ReadString s
  | Some None => ReadUndefined
  | None =>
      if bool_decide (key ∈ object_prototype_names) then ReadInherited else ReadUndefined
  end.

(** [obj[key]] for a key that is not the name of a member of
    [Object.prototype]: the own property, and [undefined] when there is
    none. The sources read the keys ['Content-Length'], ['content-length'],
    ['Cookie'], ['cookie'], ['Set-Cookie'] and ['set-cookie'] only. *)
Definition get (obj : JsObj) (key : string) : option string :=
  match obj !! key with
  | Some v => v
  | None => None
  end.

(** [String.prototype.includes]. *)
Fixpoint includes (s t : string) : bool :=
  String.prefix t s ||
  match s with
  | EmptyString => false
  | String _ s' => includes s' t
  end.

(** [String.prototype.split] with a non-empty separator: [skip] counts the
    characters of a separator occurrence that are still to be dropped,
    [cur] is the piece being collected. *)
Fixpoint split_go (sep s : string) (skip : nat) (cur : string) : list string :=
  match s with
  | EmptyString => [cur]
  | String c s' =>
      match skip with
      | S k => split_go sep s' k cur
      | O =>
          if String.prefix sep s
          then cur :: split_go sep s' (String.length sep - 1) EmptyString
          else split_go sep s' O (cur +:+ String c EmptyString)
      end
  end.

Definition split (s sep : string) : list string := split_go sep s O EmptyString.

(** [Array.prototype.join], the inverse of [split]. *)
Fixpoint join (sep : string) (pieces : list string) : string :=
  match pieces with
  | [] => EmptyString
  | [piece] => piece
  | piece :: rest => piece +:+ sep +:+ join sep rest
  end.

(** [String.prototype.toLowerCase]: the capital letters below 256 are A to
    Z and U+00C0 to U+00DE without the multiplication sign U+00D7. *)
Definition lower_ascii (c : ascii) : ascii :=
  let n := nat_of_ascii c in
  if ((Nat.leb 65 n && Nat.leb n 90) ||
      (Nat.leb 192 n && Nat.leb n 222 && negb (Nat.eqb n 215)))%bool
  then ascii_of_nat (n + 32) else c.

Fixpoint toLowerCase (s : string) : string :=
  match s with
  | EmptyString => EmptyString
  | String c s' => String (lower_ascii c) (toLowerCase s')
  end.

(** White space skipped by [parseInt]: TAB, LF, VT, FF, CR, SPACE and the
    no-break space U+00A0, the only other white space below 256. *)
Definition is_white_space (c : ascii) : bool :=
  let n := nat_of_ascii c in
  ((Nat.leb 9 n && Nat.leb n 13) || Nat.eqb n 32 || Nat.eqb n 160)%bool.

Fixpoint trim_start (s : string) : string :=
  match s with
  | EmptyString => EmptyString
  | String c s' => if is_white_space c then trim_start s' else s
  end.

Definition digit_of (c : ascii) : option Z :=
  let n := nat_of_ascii c in
  if (Nat.leb 48 n && Nat.leb n 57)%bool then Some (Z.of_nat (n - 48)) else None.

(** Value of the longest prefix of decimal digits; [acc] is [None] as long
    as no digit has been read. *)
Fixpoint digits_prefix (s : string) (acc : option Z) : option Z :=
  match s with
  | EmptyString => acc
  | String c s' =>
      match digit_of c with
      | Some d => digits_prefix s' (Some (10 * default 0 acc + d))
      | None => acc
      end
  end.

(** The integer that the double nearest to the positive integer [n] is
    equal to, ties to even: [n] itself below 2^53, else [n] rounded to 53
    significant bits. *)
Definition round_to_double (n : Z) : Z :=
  (if n <? 2 ^ 53 then n
   else
     let e := Z.log2 n - 52 in
     let q := n / 2 ^ e in
     let r := n mod 2 ^ e in
     let half := 2 ^ (e - 1) in
     (if (half <? r) || ((r =? half) && Z.odd q) then q + 1 else q) * 2 ^ e)%Z.

(** [parseInt(s, 10)]. *)
Definition parseInt (s : string) : JsNumber :=
  let s1 := trim_start s in
  let '(sign, s2) :=
    match s1 with
    | String "-"%char r => (-1, r)
    | String "+"%char r => (1, r)
    | _ => (1, s1)
    end in
  match digits_prefix s2 None with
  | Some n =>
      if (n =? 0)%Z then (if (sign <? 0)%Z then NegZero else Num 0)
      else if (n <? 10 ^ 20)%Z then Num (sign * round_to_double n)
      else Approx (sign * n)
  | None => NaN
  end.

(** Template-literal conversion of an integral number. *)
Definition number_to_string (z : Z) : string := pretty z.

End Js.
Export Js.

(** ** packages/integrations/src/httpclient.ts *)
Module Httpclient.

(** [type HttpStatusCodeRange = [number, number] | number]. Status codes
    are integral, so numbers are integers here. *)
Inductive HttpStatusCodeRange : Type :=
| StatusCode (code : Z)
| StatusRange (begin_ end_ : Z).

(** A regular expression is used through [RegExp.prototype.test] only,
    which for a pattern without the [g] and [y] flags is a predicate on the
    tested string. *)
Record RegExp : Type := { test : string -> bool }.

(** [type HttpRequestTarget = string | RegExp]. *)
Inductive HttpRequestTarget : Type :=
| TargetString (s : string)
| TargetRegExp (r : RegExp).

(** [interface HttpClientOptions]; both members are optional. *)
Record HttpClientOptions : Type := {
  failedRequestStatusCodes : option (list HttpStatusCodeRange);
  failedRequestTargets : option (list HttpRequestTarget)
}.

(** The constructor's argument, [Partial<HttpClientOptions>]: a key is
    missing ([None]) or present; a present key may hold [undefined]
    ([Some None]). *)
Record PartialOptions : Type := {
  given_failedRequestStatusCodes : option (option (list HttpStatusCodeRange));
  given_failedRequestTargets : option (option (list HttpRequestTarget))
}.

(** The pattern [/.*/]: it matches the empty prefix of every string. *)
Definition match_all : RegExp := {| test := fun _ => true |}.

Definition default_options : HttpClientOptions := {|
  failedRequestStatusCodes := Some [StatusRange 500 599];
  failedRequestTargets := Some [TargetRegExp match_all]
|}.

(** [{ ...defaults, ...options }]. *)
Definition spread (defaults : HttpClientOptions) (options : option PartialOptions)
  : HttpClientOptions :=
  match options with
  | None => defaults
  | Some o => {|
      failedRequestStatusCodes :=
        default (failedRequestStatusCodes defaults) (given_failedRequestStatusCodes o);
      failedRequestTargets :=
        default (failedRequestTargets defaults) (given_failedRequestTargets o)
    |}
  end.

(** *** The event schema, as far as [_createEvent] fills it *)

Record Mechanism : Type := {
  mechanism_type : string;
  mechanism_handled : bool
}.

Record ExceptionValue : Type := {
  exception_type : string;
  exception_value : string;
  exception_mechanism : option Mechanism
}.

Record EventRequest : Type := {
  request_url : string;
  request_method : string;
  request_headers : option JsObj;
  request_cookies : option JsObj
}.

Record ResponseContext : Type := {
  status_code : Z;
  response_headers : option JsObj;
  response_cookies : option JsObj;
  body_size : option JsNumber
}.

Record SentryEvent : Type := {
  message : string;
  exception_values : list ExceptionValue;
  request : EventRequest;
  contexts_response : ResponseContext
}.

(** The argument of [_createEvent]. *)
Module Data.
Record t : Type := {
  url : string;
  method : string;
  status : Z;
  responseHeaders : option JsObj;
  responseCookies : option JsObj;
  requestHeaders : option JsObj;
  requestCookies : option JsObj
}.
End Data.

(** *** The world the integration acts on *)

Inductive HubCall : Type :=
| GetClient
| ShouldSendDefaultPii
| CaptureEvent (event : SentryEvent).

(** Calls that reach the native functions behind the wrappers. *)
Inductive NativeCall : Type :=
| NativeFetch (args : list JsVal)
| NativeOpen (method : string) (rest : list JsVal)
| NativeSetRequestHeader (header value : string) (rest : list JsVal)
| NativeOnloadend (args : list JsVal).

Record World : Type := {
  hub_calls : list HubCall;        (* calls received by the hub, oldest first *)
  logs : list (string * list string); (* logger output: level and arguments *)
  cells : list JsObj;              (* the [headers] object of each [open] call *)
  native : list NativeCall;        (* calls that reached the native functions *)
  unhandled : list Exn             (* rejections of promises nobody listens to *)
}.

(** Effectful code: it transforms the world and returns or throws. *)
Definition M (A : Type) : Type := World -> Completion A * World.

#[global] Instance M_ret : MRet M := fun A a w => (Normal a, w).

#[global] Instance M_bind : MBind M := fun A B f m w =>
  match m w with
  | (Normal a, w') => f a w'
  | (Throw e, w') => (Throw e, w')
  end.

Definition throw {A : Type} (e : Exn) : M A := fun w => (Throw e, w).

Definition lift {A : Type} (c : Completion A) : M A := fun w => (c, w).

(** [try { body } catch (e) { handler }]. *)
Definition try_catch {A : Type} (body : M A) (handler : Exn -> M A) : M A := fun w =>
  match body w with
  | (Normal a, w') => (Normal a, w')
  | (Throw e, w') => handler e w'
  end.

(** The world after further hub calls, and after further logger output. *)
Definition called (calls : list HubCall) (w : World) : World :=
  {| hub_calls := hub_calls w ++ calls; logs := logs w; cells := cells w;
     native := native w; unhandled := unhandled w |}.

Definition logged (entries : list (string * list string)) (w : World) : World :=
  {| hub_calls := hub_calls w; logs := logs w ++ entries; cells := cells w;
     native := native w; unhandled := unhandled w |}.

(** [logger.<level>(...args)]. *)
Definition logger (level : string) (args : list string) : M unit := fun w =>
  (Normal tt, logged [(level, args)] w).

(** *** The hub, as the integration uses it *)

Record Dsn : Type := { host : string }.

Record Client : Type := { getDsn : option Dsn }.

Record Hub : Type := {
  getClient : M (option Client);
  shouldSendDefaultPii : M bool;
  captureEvent : SentryEvent -> M unit
}.

(** The integration instance. [_getCurrentHub] is unset until [setupOnce]
    runs; the hub it returns is taken to be the same on every call. *)
Record HttpClient : Type := {
  _options : HttpClientOptions;
  _getCurrentHub : option Hub
}.

Definition constructor (options : option PartialOptions) : HttpClient := {|
  _options := spread default_options options;
  _getCurrentHub := None
|}.

(** *** Fetch API and XMLHttpRequest, as the integration reads them *)

(** [Headers] is read through [forEach] only: the (key, value) pairs in
    iteration order. *)
Module Request.
Record t : Type := {
  url : string;
  method : string;
  headers : list (string * string)
}.
End Request.

Module Response.
Record t : Type := {
  status : Z;
  url : string;
  headers : list (string * string)
}.
End Response.

(** The members of an [XMLHttpRequest] that the response handler reads, at
    the time [onloadend] fires. The two header getters may throw. *)
Module XMLHttpRequest.
Record t : Type := {
  status : Z;
  responseURL : string;
  getResponseHeader : string -> Completion (option string);
  getAllResponseHeaders : Completion string
}.
End XMLHttpRequest.

(** Settlement of a promise. *)
Inductive Promise (A : Type) : Type :=
| Fulfilled (a : A)
| Rejected (e : Exn)
| Pending.
Arguments Fulfilled {A} a.
Arguments Rejected {A} e.
Arguments Pending {A}.

(** *** Header and cookie extraction *)

(** [_parseCookieString]: [cookieString.split('; ')] reduced into an object,
    each cookie split at ['=']; [value] is [undefined] when the cookie has
    no ['=']. *)
Definition _parseCookieString (cookieString : string) : JsObj :=
  fold_left
    (fun (acc : JsObj) (cookie : string) =>
       match split cookie "=" with
       | key :: rest => assign acc key (head rest)
       | [] => assign acc "undefined" None
       end)
    (split cookieString "; ") ∅.

(** [_extractFetchHeaders]: [headers.forEach((value, key) => result[key] = value)]. *)
Definition _extractFetchHeaders (headers : list (string * string)) : JsObj :=
  fold_left (fun (result : JsObj) kv => assign result kv.1 (Some kv.2)) headers ∅.

(** [_getXHRResponseHeaders]: the raw header block split at CR LF, each line
    split at [': ']. *)
Definition crlf : string := String (ascii_of_nat 13) (String (ascii_of_nat 10) EmptyString).

Definition _getXHRResponseHeaders (xhr : XMLHttpRequest.t) : Completion JsObj :=
  match XMLHttpRequest.getAllResponseHeaders xhr with
  | Throw e => Throw e
  | Normal headers =>
      if negb (truthy headers) then Normal ∅
      else
        Normal
          (fold_left
             (fun (acc : JsObj) (line : string) =>
                match split line ": " with
                | key :: rest => assign acc key (head rest)
                | [] => assign acc "undefined" None
                end)
             (split headers crlf) ∅)
  end.

(** [_getResponseSizeFromHeaders]. *)
Definition _getResponseSizeFromHeaders (headers : option JsObj) : option JsNumber :=
  match headers with
  | Some headers =>
      match or_else (get headers "Content-Length") (get headers "content-length") with
      | Some contentLength =>
          if truthy contentLength then Some (parseInt contentLength) else None
      | None => None
      end
  | None => None
  end.

(** Modelled from the spec: [addExceptionMechanism] of [@sentry/utils] is
    not among the sources. It merges the given mechanism over the current
    one of the event's first exception value and over the default
    [{ type: 'generic', handled: true }]; an event without exception value
    is left as it is. The integration passes [{ type }] only. *)
Definition addExceptionMechanism (event : SentryEvent) (newMechanism_type : string)
  : SentryEvent :=
  match exception_values event with
  | [] => event
  | firstException :: others =>
      let handled :=
        match exception_mechanism firstException with
        | Some current => mechanism_handled current
        | None => true
        end in
      {| message := message event;
         exception_values :=
           {| exception_type := exception_type firstException;
              exception_value := exception_value firstException;
              exception_mechanism :=
                Some {| mechanism_type := newMechanism_type; mechanism_handled := handled |} |}
           :: others;
         request := request event;
         contexts_response := contexts_response event |}
  end.

(** [_createEvent]. *)
Definition _createEvent (data : Data.t) : SentryEvent :=
  let message := "HTTP Client Error with status code: " +:+ number_to_string (Data.status data) in
  let event := {|
    message := message;
    exception_values :=
      [ {| exception_type := "Error"; exception_value := message; exception_mechanism := None |} ];
    request := {|
      request_url := Data.url data;
      request_method := Data.method data;
      request_headers := Data.requestHeaders data;
      request_cookies := Data.requestCookies data |};
    contexts_response := {|
      status_code := Data.status data;
      response_headers := Data.responseHeaders data;
      response_cookies := Data.responseCookies data;
      body_size := _getResponseSizeFromHeaders (Data.responseHeaders data) |}
  |} in
  addExceptionMechanism event "http.client".

(** *** The filters *)

(** [_isInGivenRequestTargets]; [existsb] is [Array.prototype.some]. *)
Definition _isInGivenRequestTargets (self : HttpClient) (target : string) : bool :=
  match failedRequestTargets (_options self) with
  | None => false
  | Some targets =>
      existsb
        (fun givenRequestTarget =>
           match givenRequestTarget with
           | TargetString s => includes target s
           | TargetRegExp r => test r target
           end)
        targets
  end.

(** [_isInGivenStatusRanges]. *)
Definition _isInGivenStatusRanges (self : HttpClient) (status : Z) : bool :=
  match failedRequestStatusCodes (_options self) with
  | None => false
  | Some ranges =>
      existsb
        (fun range =>
           match range with
           | StatusCode code => (code =? status)%Z
           | StatusRange begin_ end_ => ((status >=? begin_) && (status <=? end_))%Z
           end)
        ranges
  end.

(** [_isSentryRequest]. *)
Definition _isSentryRequest (self : HttpClient) (url : string) : M bool :=
  match _getCurrentHub self with
  | None => mret false
  | Some hub =>
      client ← getClient hub;
      match client with
      | None => mret false
      | Some client =>
          match getDsn client with
          | Some dsn => mret (includes url (host dsn))
          | None => mret false
          end
      end
  end.

(** [_shouldCaptureResponse]; [&&] evaluates its right operand only when
    the left one is true. *)
Definition _shouldCaptureResponse (self : HttpClient) (status : Z) (url : string) : M bool :=
  if _isInGivenStatusRanges self status then
    if _isInGivenRequestTargets self url then
      isSentry ← _isSentryRequest self url;
      mret (negb isSentry)
    else mret false
  else mret false.

(** *** The response handlers *)

Section Handlers.

(** The build-time constant [__DEBUG_BUILD__] and the [Request] constructor
    of the Fetch API, which may throw. *)
Variable __DEBUG_BUILD__ : bool.
Variable new_Request : JsVal -> JsVal -> Completion Request.t.

(** [__DEBUG_BUILD__ && logger.<level>(...args)]. *)
Definition debug_log (level : string) (args : list string) : M unit :=
  if __DEBUG_BUILD__ then logger level args else mret tt.

(** The callback mapped over the request and the response in
    [_fetchResponseHandler]: the headers as an object and the cookies parsed
    from the header named [cookieHeader] or its lower-case spelling. Reading
    a key of a plain object does not throw, so the [catch] branch of the
    source is not reachable here. *)
Definition headers_and_cookies (cookieHeader : string) (obj_headers : list (string * string))
  : JsObj * option JsObj :=
  let headers := _extractFetchHeaders obj_headers in
  let cookieString := or_else (get headers cookieHeader) (get headers (toLowerCase cookieHeader)) in
  let cookies :=
    match cookieString with
    | Some cookieString =>
        if truthy cookieString then Some (_parseCookieString cookieString) else None
    | None => None
    end in
  (headers, cookies).

(** [_fetchResponseHandler]. *)
Definition _fetchResponseHandler (self : HttpClient) (requestInfo : JsVal)
    (response : Response.t) (requestInit : JsVal) : M unit :=
  match _getCurrentHub self with
  | None => mret tt
  | Some hub =>
      should ← _shouldCaptureResponse self (Response.status response) (Response.url response);
      if (should : bool) then
        request ← lift (new_Request requestInfo requestInit);
        pii ← shouldSendDefaultPii hub;
        let '(requestHeaders, requestCookies, responseHeaders, responseCookies) :=
          if (pii : bool) then
            let req := headers_and_cookies "Cookie" (Request.headers request) in
            let res := headers_and_cookies "Set-Cookie" (Response.headers response) in
            (Some req.1, req.2, Some res.1, res.2)
          else (None, None, None, None) in
        let event := _createEvent {|
          Data.url := Request.url request;
          Data.method := Request.method request;
          Data.status := Response.status response;
          Data.requestHeaders := requestHeaders;
          Data.responseHeaders := responseHeaders;
          Data.requestCookies := requestCookies;
          Data.responseCookies := responseCookies |} in
        captureEvent hub event
      else mret tt
  end.

(** The first [try] block of [_xhrResponseHandler]:
    [getResponseHeader('Set-Cookie') || getResponseHeader('set-cookie')],
    parsed when it is a non-empty string. *)
Definition xhr_response_cookies (xhr : XMLHttpRequest.t) : M (option JsObj) :=
  upper ← lift (XMLHttpRequest.getResponseHeader xhr "Set-Cookie");
  cookieString ←
    (if truthy_opt upper then mret upper
     else lift (XMLHttpRequest.getResponseHeader xhr "set-cookie"));
  match cookieString with
  | Some cookieString =>
      if truthy cookieString then mret (Some (_parseCookieString cookieString)) else mret None
  | None => mret None
  end.

(** [_xhrResponseHandler]. Request cookies cannot be read from an XHR. *)
Definition _xhrResponseHandler (self : HttpClient) (xhr : XMLHttpRequest.t)
    (method : string) (headers : JsObj) : M unit :=
  match _getCurrentHub self with
  | None => mret tt
  | Some hub =>
      should ← _shouldCaptureResponse self (XMLHttpRequest.status xhr)
                 (XMLHttpRequest.responseURL xhr);
      if (should : bool) then
        pii ← shouldSendDefaultPii hub;
        extracted ←
          (if (pii : bool) then
             responseCookies ←
               try_catch (xhr_response_cookies xhr)
                 (fun _ =>
                    debug_log "log" ["Could not extract cookies from response headers"];;
                    mret None);
             responseHeaders ←
               try_catch (h ← lift (_getXHRResponseHeaders xhr); mret (Some h))
                 (fun _ =>
                    debug_log "log" ["Could not extract headers from response"];;
                    mret None);
             mret (Some headers, responseHeaders, responseCookies)
           else mret (None, None, None));
        let '(requestHeaders, responseHeaders, responseCookies) := extracted in
        let event := _createEvent {|
          Data.url := XMLHttpRequest.responseURL xhr;
          Data.method := method;
          Data.status := XMLHttpRequest.status xhr;
          Data.requestHeaders := requestHeaders;
          Data.responseHeaders := responseHeaders;
          Data.requestCookies := None;
          Data.responseCookies := responseCookies |} in
        captureEvent hub event
      else mret tt
  end.

(** *** Promises

    A promise is represented by its settlement. The reactions registered
    with [then] and [catch] run when the promise settles; their effects on
    the world are sequenced at the point of registration. *)

(** [p.then(onFulfilled)]: the derived promise. *)
Definition promise_then {A B : Type} (p : Promise A) (onFulfilled : A -> M B)
  : M (Promise B) := fun w =>
  match p with
  | Fulfilled a =>
      match onFulfilled a w with
      | (Normal b, w') => (Normal (Fulfilled b), w')
      | (Throw e, w') => (Normal (Rejected e), w')
      end
  | Rejected e => (Normal (Rejected e), w)
  | Pending => (Normal Pending, w)
  end.

(** [p.catch(onRejected)]: the derived promise. *)
Definition promise_catch {A : Type} (p : Promise A) (onRejected : Exn -> M A)
  : M (Promise A) := fun w =>
  match p with
  | Fulfilled a => (Normal (Fulfilled a), w)
  | Rejected e =>
      match onRejected e w with
      | (Normal a, w') => (Normal (Fulfilled a), w')
      | (Throw e', w') => (Normal (Rejected e'), w')
      end
  | Pending => (Normal Pending, w)
  end.

(** A promise that is dropped without a reaction: the host reports its
    rejection as unhandled. *)
Definition drop_promise {A : Type} (p : Promise A) : M unit := fun w =>
  match p with
  | Rejected e =>
      (Normal tt,
       {| hub_calls := hub_calls w; logs := logs w; cells := cells w;
          native := native w; unhandled := unhandled w ++ [e] |})
  | _ => (Normal tt, w)
  end.

(** *** The [headers] object that [open] creates and its closures share *)

Definition alloc_headers : M nat := fun w =>
  (Normal (List.length (cells w)),
   {| hub_calls := hub_calls w; logs := logs w; cells := cells w ++ [∅];
      native := native w; unhandled := unhandled w |}).

Definition read_headers (cell : nat) : M JsObj := fun w =>
  (Normal (default ∅ (cells w !! cell)), w).

(** [headers[header] = value]. *)
Definition write_header (cell : nat) (header value : string) : M unit := fun w =>
  (Normal tt,
   {| hub_calls := hub_calls w; logs := logs w;
      cells := <[cell := assign (default ∅ (cells w !! cell)) header (Some value)]> (cells w);
      native := native w; unhandled := unhandled w |}).

(** *** The wrapped functions *)

(** The replaced members. The arguments of [open] and [setRequestHeader]
    have the shape that the casts of the source assert. *)
Record OpenArgs : Type := { open_method : string; open_rest : list JsVal }.

Record SetRequestHeaderArgs : Type := {
  header_name : string;
  header_value : string;
  header_rest : list JsVal
}.

Definition FetchFn : Type := list JsVal -> M (Promise Response.t).

Definition SetRequestHeaderFn : Type := SetRequestHeaderArgs -> M JsVal.

(** [onloadend] is called with the XHR as [this]: its state when the event
    fires. *)
Definition OnloadendFn : Type := XMLHttpRequest.t -> list JsVal -> M JsVal.

(** The two members of an XHR instance that [open] replaces. *)
Record XhrMembers : Type := {
  setRequestHeader : SetRequestHeaderFn;
  onloadend : option OnloadendFn
}.

Definition OpenFn : Type := XhrMembers -> OpenArgs -> M (JsVal * XhrMembers).

(** The function that [_wrapFetch] installs in place of [originalFetch]. *)
Definition wrapped_fetch (self : HttpClient) (originalFetch : FetchFn) : FetchFn :=
  fun args =>
    let requestInfo := nth 0 args VUndefined in
    let requestInit := nth 1 args VUndefined in
    responsePromise ← originalFetch args;
    handled ←
      promise_then responsePromise
        (fun response =>
           _fetchResponseHandler self requestInfo response requestInit;;
           mret response);
    rethrown ← promise_catch handled (fun error => throw error);
    drop_promise rethrown;;
    mret responsePromise.

(** The function installed in place of the instance's [setRequestHeader]. *)
Definition wrapped_setRequestHeader (cell : nat)
    (originalSetRequestHeader : SetRequestHeaderFn) : SetRequestHeaderFn :=
  fun setRequestHeaderArgs =>
    write_header cell (header_name setRequestHeaderArgs) (header_value setRequestHeaderArgs);;
    originalSetRequestHeader setRequestHeaderArgs.

(** The function installed in place of the instance's [onloadend]. *)
Definition wrapped_onloadend (self : HttpClient) (method : string) (cell : nat)
    (original : option OnloadendFn) : OnloadendFn :=
  fun xhr onloadendArgs =>
    try_catch
      (headers ← read_headers cell;
       _xhrResponseHandler self xhr method headers)
      (fun e =>
         debug_log "warn" ["Error while extracting response event form XHR response"; e]);;
    match original with
    | Some original => original xhr onloadendArgs
    | None => mret VUndefined
    end.

(** The function that [_wrapXHR] installs in place of
    [XMLHttpRequest.prototype.open]. It returns the result of [originalOpen]
    and the members of the instance after the call. *)
Definition wrapped_open (self : HttpClient) (originalOpen : OpenFn) : OpenFn :=
  fun this openArgs =>
    let method := open_method openArgs in
    cell ← alloc_headers;
    let xhr := {|
      setRequestHeader := wrapped_setRequestHeader cell (setRequestHeader this);
      onloadend := Some (wrapped_onloadend self method cell (onloadend this)) |} in
    originalOpen xhr openArgs.

(** Modelled from the spec: [fill], [supportsNativeFetch] and [GLOBAL_OBJ]
    of [@sentry/utils] are not among the sources. [fill(obj, name, factory)]
    replaces the member [name] of [obj] by [factory] applied to its current
    value; the global object is reduced to the members that are wrapped. *)
Record Globals : Type := {
  supportsNativeFetch : bool;
  fetch : FetchFn;
  has_XMLHttpRequest : bool;
  XMLHttpRequest_open : OpenFn
}.

(** [_wrapFetch]. *)
Definition _wrapFetch (self : HttpClient) (global : Globals) : Globals :=
  if negb (supportsNativeFetch global) then global
  else {|
    supportsNativeFetch := supportsNativeFetch global;
    fetch := wrapped_fetch self (fetch global);
    has_XMLHttpRequest := has_XMLHttpRequest global;
    XMLHttpRequest_open := XMLHttpRequest_open global |}.

(** [_wrapXHR]. *)
Definition _wrapXHR (self : HttpClient) (global : Globals) : Globals :=
  if negb (has_XMLHttpRequest global) then global
  else {|
    supportsNativeFetch := supportsNativeFetch global;
    fetch := fetch global;
    has_XMLHttpRequest := has_XMLHttpRequest global;
    XMLHttpRequest_open := wrapped_open self (XMLHttpRequest_open global) |}.

(** [setupOnce]: the integration with its hub, and the wrapped globals. *)
Definition setupOnce (self : HttpClient) (getCurrentHub : Hub) (global : Globals)
  : HttpClient * Globals :=
  let self' := {| _options := _options self; _getCurrentHub := Some getCurrentHub |} in
  (self', _wrapXHR self' (_wrapFetch self' global)).

End Handlers.

(** *** A hub that records the calls it receives *)

Definition record_call (call : HubCall) : M unit := fun w =>
  (Normal tt, called [call] w).

Definition recording_hub (client : option Client) (pii : bool) : Hub := {|
  getClient := record_call GetClient;; mret client;
  shouldSendDefaultPii := record_call ShouldSendDefaultPii;; mret pii;
  captureEvent := fun event => record_call (CaptureEvent event)
|}.

(** The events handed to [captureEvent], oldest first. *)
Definition captured_events (calls : list HubCall) : list SentryEvent :=
  omap (fun call => match call with CaptureEvent event => Some event | _ => None end) calls.

Definition empty_world : World :=
  {| hub_calls := []; logs := []; cells := []; native := []; unhandled := [] |}.

(** *** The filters in the words of the specification *)

(** A numeric entry matches the status equal to it, a [[begin, end]] entry
    every status between its bounds, both included. *)
Definition status_entry_matches (range : HttpStatusCodeRange) (status : Z) : Prop :=
  match range with
  | StatusCode code => status = code
  | StatusRange begin_ end_ => (begin_ <= status <= end_)%Z
  end.

(** A string entry matches the URLs that contain it, a pattern the URLs on
    which its test succeeds. *)
Definition target_entry_matches (target : HttpRequestTarget) (url : string) : Prop :=
  match target with
  | TargetString s => exists before after, url = before +:+ s +:+ after
  | TargetRegExp r => test r url = true
  end.

(** The event carries no headers and no cookies. *)
Definition without_headers_and_cookies (event : SentryEvent) : Prop :=
  request_headers (request event) = None /\
  request_cookies (request event) = None /\
  response_headers (contexts_response event) = None /\
  response_cookies (contexts_response event) = None.

(** Two worlds that differ at most in the [headers] objects of the XHR
    wrappers. *)
Definition same_but_cells (w w' : World) : Prop :=
  hub_calls w' = hub_calls w /\ logs w' = logs w /\
  native w' = native w /\ unhandled w' = unhandled w.

(** The URL contains the host of the client's DSN. *)
Definition points_to_sentry (client : option Client) (url : string) : bool :=
  match client with
  | Some client =>
      match getDsn client with
      | Some dsn => includes url (host dsn)
      | None => false
      end
  | None => false
  end.


(** *** Concrete instances used in the examples *)

(** The integration after [setupOnce] with a recording hub. *)
Definition installed (opts : HttpClientOptions) (client : option Client) (pii : bool)
  : HttpClient :=
  {| _options := opts; _getCurrentHub := Some (recording_hub client pii) |}.

Definition sentry_client : Client :=
  {| getDsn := Some {| host := "o1.ingest.sentry.io" |} |}.

(** A hub whose [captureEvent] throws. *)
Definition failing_hub : Hub := {|
  getClient := mret None;
  shouldSendDefaultPii := mret false;
  captureEvent := fun _ => throw "capture failed"
|}.

Definition xhr_response (status : Z) (url : string)
    (getResponseHeader : string -> Completion (option string))
    (getAllResponseHeaders : Completion string) : XMLHttpRequest.t :=
  {| XMLHttpRequest.status := status;
     XMLHttpRequest.responseURL := url;
     XMLHttpRequest.getResponseHeader := getResponseHeader;
     XMLHttpRequest.getAllResponseHeaders := getAllResponseHeaders |}.

(** A failed request to the application's API and one to Sentry itself. *)
Definition xhr_api_500 : XMLHttpRequest.t :=
  xhr_response 500 "https://api.example.com/users"
    (fun name => Normal (if String.eqb name "Set-Cookie" then Some "sid=abc; theme=dark" else None))
    (Normal ("Content-Length: 1234" +:+ crlf +:+ "X-Trace: 7" +:+ crlf)).

Definition xhr_sentry_500 : XMLHttpRequest.t :=
  xhr_response 500 "https://o1.ingest.sentry.io/api/1/envelope/"
    (fun _ => Normal None) (Normal EmptyString).

Definition fetch_response (status : Z) (url : string) (headers : list (string * string))
  : Response.t :=
  {| Response.status := status; Response.url := url; Response.headers := headers |}.

Definition fetch_request (url method : string) (headers : list (string * string))
  : Request.t :=
  {| Request.url := url; Request.method := method; Request.headers := headers |}.

Definition response_api_500 : Response.t :=
  fetch_response 500 "https://api.example.com/users"
    [("content-length", "1234"); ("set-cookie", "sid=abc")].

(** A [Request] constructor that succeeds on every argument. *)
Definition request_api (_ _ : JsVal) : Completion Request.t :=
  Normal (fetch_request "https://api.example.com/users" "GET" [("cookie", "sid=abc")]).

(** Native functions that record their calls. *)
Definition record_native (call : NativeCall) : M unit := fun w =>
  (Normal tt,
   {| hub_calls := hub_calls w; logs := logs w; cells := cells w;
      native := native w ++ [call]; unhandled := unhandled w |}).

Definition native_fetch (settlement : Promise Response.t) : FetchFn := fun args =>
  record_native (NativeFetch args);; mret settlement.

Definition native_setRequestHeader : SetRequestHeaderFn := fun args =>
  record_native (NativeSetRequestHeader (header_name args) (header_value args) (header_rest args));;
  mret VUndefined.

Definition native_open : OpenFn := fun this args =>
  record_native (NativeOpen (open_method args) (open_rest args));;
  mret (VUndefined, this).

Definition native_onloadend : OnloadendFn := fun _ args =>
  record_native (NativeOnloadend args);; mret VUndefined.

(** An application's use of one XHR after [setupOnce]: [open], one
    [setRequestHeader], and the [loadend] event of a failed response. *)
Definition xhr_session (debug : bool) (self : HttpClient) : M JsVal :=
  opened ← wrapped_open debug self native_open
              {| setRequestHeader := native_setRequestHeader;
                 onloadend := Some native_onloadend |}
              {| open_method := "POST"; open_rest := [VStr "/users"; VBool true] |};
  setRequestHeader opened.2
    {| header_name := "X-Token"; header_value := "t0k3n"; header_rest := [] |};;
  match onloadend opened.2 with
  | Some handler => handler xhr_api_500 [VRef 9]
  | None => mret VUndefined
  end.

End Httpclient.

(** ** src/coreHandlers/handleDom.ts *)
Module HandleDom.

(** Modelled from the spec: [htmlTreeAsString] of [@sentry/utils] and
    [record.mirror.getId] of rrweb are not among the sources. A value that
    reaches them is described by its truthiness and by what the two
    functions do on it: return or throw. *)
Record Node : Type := {
  is_truthy : bool;
  htmlTreeAsString : Completion string;
  mirror_getId : Completion Z
}.

(** The value of [handlerData.event]: [undefined] or [null], on which
    reading [target] throws, or any other value, with the outcome of
    reading its [target] and the value itself as a node. *)
Inductive JsEvent : Type :=
| EventNullish
| EventValue (target : Completion Node) (self : Node).

(** The argument of [handleDom], of type [any]: [undefined] or [null], or a
    value with the outcome of reading [event] and of evaluating
    [`${handlerData.name}`]. *)
Inductive HandlerData : Type :=
| DataNullish
| DataValue (event : Completion JsEvent) (name : Completion string).

Record Breadcrumb : Type := {
  timestamp : Q;
  type : string;
  category : string;
  message : string;
  data : gmap string (option Z)
}.

Definition read_event (handlerData : HandlerData) : Completion JsEvent :=
  match handlerData with
  | DataNullish => Throw "TypeError: Cannot read properties of undefined (reading 'event')"
  | DataValue event _ => event
  end.

Definition read_name (handlerData : HandlerData) : Completion string :=
  match handlerData with
  | DataNullish => Throw "TypeError: Cannot read properties of undefined (reading 'name')"
  | DataValue _ name => name
  end.

(** The body of the [try] block: the value [targetNode] holds when the
    block is left, and the outcome of the block, which is the value
    assigned to [target] when it completes. *)
Definition try_block (handlerData : HandlerData) : option Node * Completion string :=
  match read_event handlerData with
  | Throw e => (None, Throw e)
  | Normal EventNullish =>
      (None, Throw "TypeError: Cannot read properties of undefined (reading 'target')")
  | Normal (EventValue target self) =>
      match target with
      | Throw e => (None, Throw e)
      | Normal node =>
          let targetNode := if is_truthy node then node else self in
          (Some targetNode, htmlTreeAsString targetNode)
      end
  end.

(** The [try]/[catch] statement: [targetNode] and [target] after it. *)
Definition extract_target (handlerData : HandlerData) : option Node * string :=
  let '(targetNode, outcome) := try_block handlerData in
  match outcome with
  | Normal target => (targetNode, target)
  | Throw _ => (targetNode, "<unknown>")
  end.

(** [handleDom]; [now] is the value of [new Date().getTime()]. The division
    by 1000 is exact here, not rounded to a double. *)
Definition handleDom (now : Z) (handlerData : HandlerData) : Completion (option Breadcrumb) :=
  let '(targetNode, target) := extract_target handlerData in
  if Nat.eqb (String.length target) 0 then Normal None
  else
    match read_name handlerData with
    | Throw e => Throw e
    | Normal name =>
        let nodeId :=
          match targetNode with
          | Some node =>
              if is_truthy node then
                match mirror_getId node with
                | Normal id => Normal (Some id)
                | Throw e => Throw e
                end
              else Normal None
          | None => Normal None
          end in
        match nodeId with
        | Throw e => Throw e
        | Normal nodeId =>
            Normal (Some {|
              timestamp := (inject_Z now / 1000)%Q;
              type := "default";
              category := "ui." +:+ name;
              message := target;
              data := {["nodeId" := nodeId]} |})
        end
    end.

(** *** Concrete instances used in the examples *)

Definition button : Node :=
  {| is_truthy := true; htmlTreeAsString := Normal "body > button#save"; mirror_getId := Normal 17 |}.

(** A node whose stringification throws. *)
Definition hostile_node : Node :=
  {| is_truthy := true; htmlTreeAsString := Throw "Permission denied"; mirror_getId := Normal 23 |}.

Definition click_on (node : Node) : HandlerData :=
  DataValue (Normal (EventValue (Normal node) node)) (Normal "click").

End HandleDom.

(** ** The breadcrumb ring of the specification *)
Module BreadcrumbRing.

Section Ring.
Context {A : Type}.

(** Modelled from the spec: the sources contain no [BreadcrumbRing]. Section
    4.1 of the specification: [add] appends and evicts the oldest entry if
    the ring is at capacity; capacity 0 disables breadcrumbs. *)
Definition push (capacity : nat) (breadcrumb : A) (entries : list A) : list A :=
  if Nat.eqb capacity 0 then []
  else if Nat.ltb (List.length entries) capacity then entries ++ [breadcrumb]
  else tail entries ++ [breadcrumb].

(** The ring owns a sequence object in the store; snapshots are further
    sequence objects of the same store. *)
Record t : Type := {
  capacity : nat;
  buffer : nat
}.

(** Modelled from the spec: a new ring with an empty sequence at a fresh
    location. *)
Definition create (N : nat) (store : gmap nat (list A)) : t * gmap nat (list A) :=
  let l := fresh (dom store) in
  ({| capacity := N; buffer := l |}, <[l := []]> store).

Definition contents (ring : t) (store : gmap nat (list A)) : list A :=
  default [] (store !! buffer ring).

(** Modelled from the spec: [add(breadcrumb)] updates the ring's own
    sequence in place. *)
Definition add (ring : t) (breadcrumb : A) (store : gmap nat (list A)) : gmap nat (list A) :=
  <[buffer ring := push (capacity ring) breadcrumb (contents ring store)]> store.

(** Modelled from the spec: [snapshot()] returns an independent ordered
    copy, oldest first: a new sequence object. *)
Definition snapshot (ring : t) (store : gmap nat (list A)) : nat * gmap nat (list A) :=
  let l := fresh (dom store) in
  (l, <[l := contents ring store]> store).

(** A sequence of [add] calls, in order. *)
Definition add_all (ring : t) (breadcrumbs : list A) (store : gmap nat (list A))
  : gmap nat (list A) :=
  foldl (fun st b => add ring b st) store breadcrumbs.

(** The [N] most recent entries of a sequence, oldest first. *)
Definition most_recent (N : nat) (breadcrumbs : list A) : list A :=
  drop (List.length breadcrumbs - N) breadcrumbs.

End Ring.

(** The scenario of the specification: a ring of capacity 2 in an empty
    store; a snapshot is taken after the additions [before], further
    entries are added afterwards. The result is the snapshot as read after
    the later additions. *)
Definition scenario (before later : list string) : option (list string) :=
  let '(ring, s1) := create 2 (∅ : gmap nat (list string)) in
  let s2 := add_all ring before s1 in
  let '(snap, s3) := snapshot ring s2 in
  add_all ring later s3 !! snap.

End BreadcrumbRing.

(** ** Header and cookie strings as they arrive, and sessions of one XHR *)
Module Formats.
Import Httpclient.

(** The string does not contain the character. *)
Definition free_of (c : ascii) (s : string) : Prop :=
  includes s (String c EmptyString) = false.

(** A [Cookie] header: [name=value] pairs separated by ['; ']. *)
Definition cookie_pair (kv : string * string) : string := kv.1 +:+ "=" +:+ kv.2.

Definition cookie_string (pairs : list (string * string)) : string :=
  join "; " (map cookie_pair pairs).

(** The block [getAllResponseHeaders] returns: one [name: value] line per
    header, each terminated by CR LF. *)
Definition header_line (nv : string * string) : string := nv.1 +:+ ": " +:+ nv.2.

Definition header_block (lines : list (string * string)) : string :=
  join crlf (map header_line lines ++ [EmptyString]).

(** [obj[name] = value] for each pair in turn. *)
Definition assign_all (pairs : list (string * string)) (obj : JsObj) : JsObj :=
  fold_left (fun (acc : JsObj) kv => assign acc kv.1 (Some kv.2)) pairs obj.

End Formats.

Module Sessions.
Import Httpclient.

(** The application calls [setRequestHeader] once per pair. *)
Fixpoint set_request_headers (setRequestHeader : SetRequestHeaderFn)
    (pairs : list (string * string)) : M unit :=
  match pairs with
  | [] => mret tt
  | kv :: rest =>
      setRequestHeader {| header_name := kv.1; header_value := kv.2; header_rest := [] |};;
      set_request_headers setRequestHeader rest
  end.

(** The browser fires [loadend]: it calls the instance's [onloadend], if
    set, with the instance as it is then. *)
Definition fire_loadend (members : XhrMembers) (xhr : XMLHttpRequest.t)
    (args : list JsVal) : M JsVal :=
  match onloadend members with
  | Some handler => handler xhr args
  | None => mret VUndefined
  end.

(** A new XHR instance, before the application sets a handler. *)
Definition new_xhr : XhrMembers :=
  {| setRequestHeader := native_setRequestHeader; onloadend := None |}.

(** One request: [open], the request headers, and the [loadend] event. *)
Definition xhr_lifecycle (debug : bool) (self : HttpClient) (openArgs : OpenArgs)
    (pairs : list (string * string)) (xhr : XMLHttpRequest.t) (args : list JsVal)
  : M JsVal :=
  opened ← wrapped_open debug self native_open new_xhr openArgs;
  set_request_headers (setRequestHeader opened.2) pairs;;
  fire_loadend opened.2 xhr args.

(** An instance that is opened twice before its [loadend] event. *)
Definition xhr_reopened (debug : bool) (self : HttpClient) (first second : OpenArgs)
    (xhr : XMLHttpRequest.t) (args : list JsVal) : M JsVal :=
  opened ← wrapped_open debug self native_open new_xhr first;
  reopened ← wrapped_open debug self native_open opened.2 second;
  fire_loadend reopened.2 xhr args.

End Sessions.

(** Outcomes of the fetch path that the wrapper does not guard. *)
Module Fetching.
Import Httpclient.

(** The world after the host has reported a rejection nobody handles. *)
Definition unhandled_rejection (e : Exn) (w : World) : World :=
  {| hub_calls := hub_calls w; logs := logs w; cells := cells w;
     native := native w; unhandled := unhandled w ++ [e] |}.

(** A [Request] constructor that throws: the call's first argument is a
    [Request] with a body, which the original fetch has consumed by the
    time the response arrives. *)
Definition request_unusable (_ _ : JsVal) : Completion Request.t :=
  Throw "TypeError: Cannot construct a Request with a Request object that has already been used.".

End Fetching.

(** * Properties *)

(** ** Strings *)

Lemma append_cons (c : ascii) (s t : string) : String c s +:+ t = String c (s +:+ t).
Proof. reflexivity. Qed.

Lemma prefix_spec (t s : string) :
  String.prefix t s = true <-> exists after, s = t +:+ after.
Proof.
  revert s. induction t as [|c t IH]; intros [|d s]; simpl.
  - split; [intros _; by exists EmptyString | done].
  - split; [intros _; by exists (String d s) | done].
  - split; [done | intros [after H]; discriminate].
  - destruct (Ascii.ascii_dec c d) as [->|Hne].
    + rewrite IH. split; intros [after H]; exists after;
        rewrite append_cons in *; congruence.
    + split; [done | intros [after H]; rewrite append_cons in H; congruence].
Qed.

(** [includes] decides the substring relation. *)
Lemma includes_spec (s t : string) :
  includes s t = true <-> exists before after, s = before +:+ t +:+ after.
Proof.
  induction s as [|c s IH].
  - destruct t as [|d t]; simpl.
    + split; [intros _; by exists EmptyString, EmptyString | done].
    + split; [done | intros [[|b before] [after H]]; discriminate].
  - cbn [includes]. rewrite orb_true_iff, prefix_spec, IH. split.
    + intros [[after H] | [before [after H]]].
      * by exists EmptyString, after.
      * exists (String c before), after. rewrite append_cons. by rewrite H.
    + intros [before [after H]]. destruct before as [|d before].
      * left. by exists after.
      * right. exists before, after. rewrite append_cons in H. congruence.
Qed.

Lemma append_nil_r (s : string) : s +:+ EmptyString = s.
Proof. induction s as [|c s IH]; [done|]. by rewrite append_cons, IH. Qed.

Lemma append_assoc (s t u : string) : (s +:+ t) +:+ u = s +:+ t +:+ u.
Proof. induction s as [|c s IH]; [done|]. by rewrite !append_cons, IH. Qed.

Lemma append_length (s t : string) :
  String.length (s +:+ t) = (String.length s + String.length t)%nat.
Proof. induction s as [|c s IH]; [done|]. rewrite append_cons. simpl. by rewrite IH. Qed.

(** While [skip] characters are to be dropped, [split_go] drops them. *)
Lemma split_go_skip (sep x rest cur : string) :
  split_go sep (x +:+ rest) (String.length x) cur = split_go sep rest 0 cur.
Proof. induction x as [|c x IH]; [done|]. rewrite append_cons. simpl. apply IH. Qed.

Lemma split_go_cons (sep s : string) (skip : nat) (cur : string) :
  exists piece pieces, split_go sep s skip cur = piece :: pieces.
Proof.
  revert skip cur. induction s as [|c s IH]; intros skip cur; [by eexists _, _|].
  cbn [split_go]. destruct skip as [|k]; [|apply IH].
  destruct (String.prefix sep (String c s)); [by eexists _, _ | apply IH].
Qed.

Lemma join_cons (sep piece next : string) (rest : list string) :
  join sep (piece :: next :: rest) = piece +:+ sep +:+ join sep (next :: rest).
Proof. reflexivity. Qed.

Lemma join_split_go (sep : string) (n : nat) :
  sep <> EmptyString ->
  forall s cur, (String.length s <= n)%nat -> join sep (split_go sep s 0 cur) = cur +:+ s.
Proof.
  intros Hsep. induction n as [|n IH]; intros s cur Hlen.
  - destruct s; [|simpl in Hlen; lia]. simpl. by rewrite append_nil_r.
  - destruct s as [|c s]; [simpl; by rewrite append_nil_r|].
    cbn [split_go]. destruct (String.prefix sep (String c s)) eqn:Hprefix.
    + apply prefix_spec in Hprefix as [rest Hrest].
      destruct sep as [|d sep']; [done|]. rewrite append_cons in Hrest.
      injection Hrest as <- ->.
      replace (String.length (String c sep') - 1)%nat with (String.length sep')
        by (simpl; lia).
      rewrite split_go_skip.
      assert (Hrec : join (String c sep') (split_go (String c sep') rest 0 EmptyString) = rest).
      { rewrite IH; [done|]. simpl in Hlen. rewrite append_length in Hlen. lia. }
      destruct (split_go_cons (String c sep') rest 0 EmptyString) as (piece & pieces & Hgo).
      rewrite Hgo in Hrec |- *. rewrite join_cons, Hrec.
      by rewrite append_cons.
    + rewrite IH by (simpl in Hlen; lia). by rewrite append_assoc.
Qed.

(** [split] cuts the string at the separators and at nothing else: joining
    the pieces gives the string back. *)
Lemma join_split (s sep : string) : sep <> EmptyString -> join sep (split s sep) = s.
Proof. intros Hsep. unfold split. by rewrite (join_split_go sep (String.length s)). Qed.

(** ** The HttpClient integration *)
Section HttpclientFacts.
Import Httpclient.

(** C2. Filter matching: a status matches [failedRequestStatusCodes] exactly
    when some entry of the list matches it, a numeric entry by equality and a
    [[begin, end]] entry by [begin <= status <= end]; a URL matches
    [failedRequestTargets] exactly when some entry matches it, a string entry
    by containment and a pattern by its test; a list that is [undefined]
    matches nothing. *)
Theorem filter_matching (self : HttpClient) (status : Z) (url : string) :
  (_isInGivenStatusRanges self status = true <->
   exists ranges range,
     failedRequestStatusCodes (_options self) = Some ranges /\
     In range ranges /\ status_entry_matches range status) /\
  (_isInGivenRequestTargets self url = true <->
   exists targets target,
     failedRequestTargets (_options self) = Some targets /\
     In target targets /\ target_entry_matches target url) /\
  (failedRequestStatusCodes (_options self) = None ->
   _isInGivenStatusRanges self status = false) /\
  (failedRequestTargets (_options self) = None ->
   _isInGivenRequestTargets self url = false).
Proof.
  unfold _isInGivenStatusRanges, _isInGivenRequestTargets.
  repeat split.
  - destruct (failedRequestStatusCodes _) as [ranges|]; [|done].
    intros H. apply existsb_exists in H as [range [Hin Hm]].
    exists ranges, range. repeat split; [done|].
    destruct range; simpl in *; lia.
  - intros (ranges & range & -> & Hin & Hm).
    apply existsb_exists. exists range. split; [done|].
    destruct range; simpl in *; lia.
  - destruct (failedRequestTargets _) as [targets|]; [|done].
    intros H. apply existsb_exists in H as [target [Hin Hm]].
    exists targets, target. repeat split; [done|].
    destruct target; simpl in *; [by apply includes_spec | done].
  - intros (targets & target & -> & Hin & Hm).
    apply existsb_exists. exists target. split; [done|].
    destruct target; simpl in *; [by apply includes_spec | done].
  - by intros ->.
  - by intros ->.
Qed.

(** *** Runs of the handlers against the recording hub *)

Lemma called_nil (w : World) : called [] w = w.
Proof. destruct w. unfold called. simpl. by rewrite app_nil_r. Qed.

Lemma called_called (a b : list HubCall) (w : World) :
  called b (called a w) = called (a ++ b)%list w.
Proof. unfold called. simpl. by rewrite app_assoc. Qed.

Ltac run_m :=
  unfold mbind, M_bind, mret, M_ret, lift, throw, try_catch, record_call; simpl.

Lemma isSentryRequest_run opts client pii url w :
  _isSentryRequest (installed opts client pii) url w =
  (Normal (points_to_sentry client url), called [GetClient] w).
Proof.
  unfold _isSentryRequest, points_to_sentry. simpl. run_m.
  destruct client as [c|]; [|done]. by destruct (getDsn c).
Qed.

Lemma shouldCaptureResponse_run opts client pii status url w :
  let self := installed opts client pii in
  _shouldCaptureResponse self status url w =
  if _isInGivenStatusRanges self status && _isInGivenRequestTargets self url
  then (Normal (negb (points_to_sentry client url)), called [GetClient] w)
  else (Normal false, w).
Proof.
  intros self. unfold _shouldCaptureResponse.
  destruct (_isInGivenStatusRanges self status); [|done].
  destruct (_isInGivenRequestTargets self url); [|done].
  simpl. unfold mbind, M_bind. unfold self. rewrite isSentryRequest_run. done.
Qed.

Lemma logged_nil (w : World) : logged [] w = w.
Proof. destruct w. unfold logged. simpl. by rewrite app_nil_r. Qed.

Lemma logged_logged a b (w : World) : logged b (logged a w) = logged (a ++ b)%list w.
Proof. unfold logged. simpl. by rewrite app_assoc. Qed.

Lemma debug_log_run debug level args w :
  debug_log debug level args w =
  (Normal tt, logged (if debug then [(level, args)] else []) w).
Proof. unfold debug_log. destruct debug; [done|]. by rewrite logged_nil. Qed.

(** The two guarded extraction steps of the XHR handler never throw and
    touch the log only. *)
Lemma xhr_cookies_guarded debug xhr w :
  exists entries cookies,
    try_catch (xhr_response_cookies xhr)
      (fun _ =>
         debug_log debug "log" ["Could not extract cookies from response headers"];;
         mret None) w =
    (Normal cookies, logged entries w).
Proof.
  unfold try_catch, xhr_response_cookies. run_m.
  destruct (XMLHttpRequest.getResponseHeader xhr "Set-Cookie") as [upper|e1]; simpl.
  - destruct (truthy_opt upper) eqn:Hup; simpl.
    + destruct upper as [s|]; [|done]. simpl in Hup. rewrite Hup.
      eexists [], _. by rewrite logged_nil.
    + destruct (XMLHttpRequest.getResponseHeader xhr "set-cookie") as [[s|]|e2]; simpl.
      * destruct (truthy s); eexists [], _; by rewrite logged_nil.
      * eexists [], _; by rewrite logged_nil.
      * rewrite debug_log_run. by eexists _, _.
  - rewrite debug_log_run. by eexists _, _.
Qed.

Lemma xhr_headers_guarded debug xhr w :
  exists entries headers,
    try_catch (h ← lift (_getXHRResponseHeaders xhr); mret (Some h))
      (fun _ =>
         debug_log debug "log" ["Could not extract headers from response"];;
         mret None) w =
    (Normal headers, logged entries w).
Proof.
  unfold try_catch. run_m.
  destruct (_getXHRResponseHeaders xhr) as [h|e]; simpl.
  - eexists [], _. by rewrite logged_nil.
  - rewrite debug_log_run. by eexists _, _.
Qed.

(** The XHR handler: it returns normally; the hub is not called when a
    filter fails, asked for its client only when the URL points to Sentry,
    and handed one event otherwise. *)
Lemma xhrResponseHandler_run debug opts client pii xhr method headers w :
  let self := installed opts client pii in
  let status := XMLHttpRequest.status xhr in
  let url := XMLHttpRequest.responseURL xhr in
  exists entries event,
    _xhrResponseHandler debug self xhr method headers w =
    (Normal tt,
     if _isInGivenStatusRanges self status && _isInGivenRequestTargets self url
     then if points_to_sentry client url then called [GetClient] w
          else called [CaptureEvent event]
                 (logged entries (called [GetClient; ShouldSendDefaultPii] w))
     else w) /\
    (pii = false ->
     entries = [] /\
     event = _createEvent {|
       Data.url := url; Data.method := method; Data.status := status;
       Data.requestHeaders := None; Data.responseHeaders := None;
       Data.requestCookies := None; Data.responseCookies := None |}).
Proof.
  intros self status url. unfold _xhrResponseHandler. simpl.
  unfold mbind at 1, M_bind at 1.
  pose proof (shouldCaptureResponse_run opts client pii status url w) as Hrun.
  simpl in Hrun. fold self status url in Hrun |- *. rewrite Hrun. clear Hrun.
  destruct (_isInGivenStatusRanges self status && _isInGivenRequestTargets self url);
    [|by exists [], (_createEvent {|
       Data.url := url; Data.method := method; Data.status := status;
       Data.requestHeaders := None; Data.responseHeaders := None;
       Data.requestCookies := None; Data.responseCookies := None |})].
  destruct (points_to_sentry client url); simpl;
    [by exists [], (_createEvent {|
       Data.url := url; Data.method := method; Data.status := status;
       Data.requestHeaders := None; Data.responseHeaders := None;
       Data.requestCookies := None; Data.responseCookies := None |})|].
  destruct pii.
  - unfold mbind at 1, M_bind at 1. simpl. unfold mbind at 1, M_bind at 1.
    unfold mbind at 1, M_bind at 1.
    destruct (xhr_cookies_guarded debug xhr (called [ShouldSendDefaultPii] (called [GetClient] w)))
      as (entries1 & cookies & ->).
    unfold mbind at 1, M_bind at 1.
    destruct (xhr_headers_guarded debug xhr
                (logged entries1 (called [ShouldSendDefaultPii] (called [GetClient] w))))
      as (entries2 & hs & ->).
    run_m. eexists (entries1 ++ entries2)%list, _. split; [|done].
    rewrite logged_logged, called_called. reflexivity.
  - run_m. eexists [], _. split; [|done]. rewrite logged_nil.
    unfold called. simpl. by rewrite <- !app_assoc.
Qed.

(** The fetch handler: as the XHR handler, but for the [Request] it builds
    first, whose constructor may throw. *)
Lemma fetchResponseHandler_run new_Request opts client pii info response init w :
  let self := installed opts client pii in
  let status := Response.status response in
  let url := Response.url response in
  _fetchResponseHandler new_Request self info response init w =
  if _isInGivenStatusRanges self status && _isInGivenRequestTargets self url
  then if points_to_sentry client url then (Normal tt, called [GetClient] w)
       else match new_Request info init with
            | Throw e => (Throw e, called [GetClient] w)
            | Normal request =>
                let attached :=
                  if pii then
                    let req := headers_and_cookies "Cookie" (Request.headers request) in
                    let res := headers_and_cookies "Set-Cookie" (Response.headers response) in
                    (Some req.1, req.2, Some res.1, res.2)
                  else (None, None, None, None) in
                (Normal tt,
                 called [GetClient; ShouldSendDefaultPii;
                         CaptureEvent (_createEvent {|
                           Data.url := Request.url request;
                           Data.method := Request.method request;
                           Data.status := status;
                           Data.requestHeaders := attached.1.1.1;
                           Data.responseHeaders := attached.1.2;
                           Data.requestCookies := attached.1.1.2;
                           Data.responseCookies := attached.2 |})] w)
            end
  else (Normal tt, w).
Proof.
  intros self status url. unfold _fetchResponseHandler. simpl.
  unfold mbind at 1, M_bind at 1.
  pose proof (shouldCaptureResponse_run opts client pii status url w) as Hrun.
  simpl in Hrun. fold self status url in Hrun |- *. rewrite Hrun. clear Hrun.
  destruct (_isInGivenStatusRanges self status && _isInGivenRequestTargets self url);
    [|done].
  destruct (points_to_sentry client url); simpl; [done|].
  run_m. destruct (new_Request info init) as [request|e]; [|done].
  destruct pii; simpl; unfold called; simpl; by rewrite <- !app_assoc.
Qed.

Lemma captured_events_app (a b : list HubCall) :
  captured_events (a ++ b) = (captured_events a ++ captured_events b)%list.
Proof. unfold captured_events. apply omap_app. Qed.

Lemma captured_iff (before after : list SentryEvent) (should : bool) (event : SentryEvent) :
  after = (before ++ if should then [event] else [])%list ->
  ((exists e, after = (before ++ [e])%list) <-> should = true) /\
  (should = false -> after = before).
Proof.
  intros ->. destruct should.
  - split; [|done]. split; [done | by exists event].
  - rewrite app_nil_r. split; [|done]. split; [|done].
    intros [e He]. apply (f_equal List.length) in He.
    rewrite length_app in He. simpl in He. lia.
Qed.

Lemma xhr_captured debug opts client pii xhr method headers w :
  let self := installed opts client pii in
  let status := XMLHttpRequest.status xhr in
  let url := XMLHttpRequest.responseURL xhr in
  let after := (_xhrResponseHandler debug self xhr method headers w).2 in
  exists event,
    captured_events (hub_calls after) =
    (captured_events (hub_calls w) ++
     if _isInGivenStatusRanges self status && _isInGivenRequestTargets self url
        && negb (points_to_sentry client url)
     then [event] else [])%list /\
    (_isInGivenStatusRanges self status && _isInGivenRequestTargets self url = false ->
     after = w).
Proof.
  intros self status url after.
  pose proof (xhrResponseHandler_run debug opts client pii xhr method headers w) as H.
  cbv zeta in H. destruct H as (entries & event & Hrun & _).
  exists event. unfold after, self. rewrite Hrun. fold self status url. simpl.
  destruct (_isInGivenStatusRanges self status && _isInGivenRequestTargets self url);
    simpl; [|by rewrite app_nil_r].
  split; [|done].
  destruct (points_to_sentry client url); simpl; rewrite !captured_events_app; simpl.
  - by rewrite app_nil_r.
  - by rewrite app_nil_r.
Qed.

Lemma fetch_captured new_Request opts client pii info response init request w :
  new_Request info init = Normal request ->
  let self := installed opts client pii in
  let status := Response.status response in
  let url := Response.url response in
  let after := (_fetchResponseHandler new_Request self info response init w).2 in
  exists event,
    captured_events (hub_calls after) =
    (captured_events (hub_calls w) ++
     if _isInGivenStatusRanges self status && _isInGivenRequestTargets self url
        && negb (points_to_sentry client url)
     then [event] else [])%list /\
    (_isInGivenStatusRanges self status && _isInGivenRequestTargets self url = false ->
     after = w).
Proof.
  intros Hrequest self status url after. unfold after, self.
  rewrite fetchResponseHandler_run. fold self status url. rewrite Hrequest.
  destruct (_isInGivenStatusRanges self status && _isInGivenRequestTargets self url);
    simpl; [|exists (_createEvent {|
       Data.url := ""; Data.method := ""; Data.status := 0;
       Data.requestHeaders := None; Data.responseHeaders := None;
       Data.requestCookies := None; Data.responseCookies := None |});
       by rewrite app_nil_r].
  eexists. split; [|done].
  destruct (points_to_sentry client url); simpl; rewrite !captured_events_app; simpl.
  - by rewrite app_nil_r.
  - reflexivity.
Qed.

(** C1, as amended. With the hub installed, the XHR handler and the fetch
    handler (when the [Request] can be rebuilt) hand an event to
    [hub.captureEvent] if and only if the status matches
    [failedRequestStatusCodes], the URL matches [failedRequestTargets] and
    the URL does not contain the host of the client's DSN; when one of the
    two filters does not match, the world is left as it was: no event, no
    call to the hub. *)
Theorem capture_iff_filters_and_not_sentry
    debug new_Request opts client pii xhr method headers info response init request w
    (Hrequest : new_Request info init = Normal request) :
  let self := installed opts client pii in
  let filters status url :=
    _isInGivenStatusRanges self status && _isInGivenRequestTargets self url in
  let should status url := filters status url && negb (points_to_sentry client url) in
  let after_xhr := (_xhrResponseHandler debug self xhr method headers w).2 in
  let after_fetch := (_fetchResponseHandler new_Request self info response init w).2 in
  (((exists event,
       captured_events (hub_calls after_xhr) =
       (captured_events (hub_calls w) ++ [event])%list) <->
    should (XMLHttpRequest.status xhr) (XMLHttpRequest.responseURL xhr) = true) /\
   (should (XMLHttpRequest.status xhr) (XMLHttpRequest.responseURL xhr) = false ->
    captured_events (hub_calls after_xhr) = captured_events (hub_calls w)) /\
   (filters (XMLHttpRequest.status xhr) (XMLHttpRequest.responseURL xhr) = false ->
    after_xhr = w)) /\
  (((exists event,
       captured_events (hub_calls after_fetch) =
       (captured_events (hub_calls w) ++ [event])%list) <->
    should (Response.status response) (Response.url response) = true) /\
   (should (Response.status response) (Response.url response) = false ->
    captured_events (hub_calls after_fetch) = captured_events (hub_calls w)) /\
   (filters (Response.status response) (Response.url response) = false ->
    after_fetch = w)).
Proof.
  intros self filters should after_xhr after_fetch. split.
  - destruct (xhr_captured debug opts client pii xhr method headers w) as (event & Hc & Hw).
    apply captured_iff in Hc as [Hiff Hno]. by repeat split; try apply Hiff.
  - destruct (fetch_captured new_Request opts client pii info response init request w Hrequest)
      as (event & Hc & Hw).
    apply captured_iff in Hc as [Hiff Hno]. by repeat split; try apply Hiff.
Qed.

(** C1, witness: a failed request to the application's API, through both
    handlers. *)
Lemma capture_iff_filters_and_not_sentry_witness :
  request_api VUndefined VUndefined =
    Normal (fetch_request "https://api.example.com/users" "GET" [("cookie", "sid=abc")]) /\
  (exists event,
     captured_events
       (hub_calls (_xhrResponseHandler true (installed default_options (Some sentry_client) true)
                     xhr_api_500 "GET" ∅ empty_world).2) =
     (captured_events (hub_calls empty_world) ++ [event])%list).
Proof.
  split; [reflexivity|].
  apply (capture_iff_filters_and_not_sentry true request_api default_options
           (Some sentry_client) true xhr_api_500 "GET" ∅ VUndefined response_api_500 VUndefined
           (fetch_request "https://api.example.com/users" "GET" [("cookie", "sid=abc")])
           empty_world eq_refl).
  reflexivity.
Defined.

(** C1 as stated fails: status 500 matches the default status codes and the
    URL matches the default targets, yet no event is captured, because the
    request went to the host of the client's DSN. *)
Lemma capture_despite_matching_filters_fails :
  _isInGivenStatusRanges (installed default_options (Some sentry_client) false)
    (XMLHttpRequest.status xhr_sentry_500) = true /\
  _isInGivenRequestTargets (installed default_options (Some sentry_client) false)
    (XMLHttpRequest.responseURL xhr_sentry_500) = true /\
  captured_events
    (hub_calls (_xhrResponseHandler true (installed default_options (Some sentry_client) false)
                  xhr_sentry_500 "POST" ∅ empty_world).2) = [].
Proof. by vm_compute. Qed.

(** *** Requests to Sentry itself *)

Lemma shouldCaptureResponse_client self hub status url w client w' :
  _getCurrentHub self = Some hub ->
  getClient hub w = (Normal client, w') ->
  _shouldCaptureResponse self status url w =
  if _isInGivenStatusRanges self status && _isInGivenRequestTargets self url
  then (Normal (negb (points_to_sentry client url)), w')
  else (Normal false, w).
Proof.
  intros Hhub Hclient. unfold _shouldCaptureResponse, _isSentryRequest. rewrite Hhub.
  destruct (_isInGivenStatusRanges self status); [|done].
  destruct (_isInGivenRequestTargets self url); [|done].
  simpl. unfold mbind, M_bind. rewrite Hclient.
  destruct client as [c|]; [|done]. simpl. by destruct (getDsn c).
Qed.

(** C9. A URL that contains the host of the client's DSN is never captured:
    [_shouldCaptureResponse] returns [false] for every status and every
    configured list, and both handlers return without asking the hub for
    anything but its client. Without an installed hub, without a client or
    without a DSN the exclusion does not apply and the two filters decide. *)
Theorem sentry_requests_excluded debug new_Request self status url w :
  let filters := _isInGivenStatusRanges self status && _isInGivenRequestTargets self url in
  (forall hub client dsn w',
     _getCurrentHub self = Some hub ->
     getClient hub w = (Normal (Some client), w') ->
     getDsn client = Some dsn ->
     includes url (host dsn) = true ->
     (_shouldCaptureResponse self status url w).1 = Normal false /\
     (forall getResponseHeader getAllResponseHeaders method headers,
        _xhrResponseHandler debug self
          (xhr_response status url getResponseHeader getAllResponseHeaders) method headers w =
        (Normal tt, if filters then w' else w)) /\
     (forall info init response_headers,
        _fetchResponseHandler new_Request self info
          (fetch_response status url response_headers) init w =
        (Normal tt, if filters then w' else w))) /\
  (_getCurrentHub self = None ->
   _shouldCaptureResponse self status url w = (Normal filters, w)) /\
  (forall hub w',
     _getCurrentHub self = Some hub ->
     getClient hub w = (Normal None, w') ->
     (_shouldCaptureResponse self status url w).1 = Normal filters) /\
  (forall hub client w',
     _getCurrentHub self = Some hub ->
     getClient hub w = (Normal (Some client), w') ->
     getDsn client = None ->
     (_shouldCaptureResponse self status url w).1 = Normal filters).
Proof.
  intros filters. repeat split.
  - intros. erewrite shouldCaptureResponse_client by done. fold filters.
    unfold points_to_sentry. rewrite H1, H2. by destruct filters.
  - intros. unfold _xhrResponseHandler. rewrite H. simpl.
    unfold mbind at 1, M_bind at 1.
    erewrite shouldCaptureResponse_client by done. fold filters.
    unfold points_to_sentry. rewrite H1, H2. by destruct filters.
  - intros. unfold _fetchResponseHandler. rewrite H. simpl.
    unfold mbind at 1, M_bind at 1.
    erewrite shouldCaptureResponse_client by done. fold filters.
    unfold points_to_sentry. rewrite H1, H2. by destruct filters.
  - intros Hnone. unfold _shouldCaptureResponse, _isSentryRequest, filters. rewrite Hnone.
    destruct (_isInGivenStatusRanges self status); [|done].
    by destruct (_isInGivenRequestTargets self url).
  - intros. erewrite shouldCaptureResponse_client by done. fold filters.
    by destruct filters.
  - intros. erewrite shouldCaptureResponse_client by done. fold filters.
    unfold points_to_sentry. rewrite H1. by destruct filters.
Qed.

(** C9, witness: a failed request to the ingestion host of the DSN. *)
Lemma sentry_requests_excluded_witness :
  _getCurrentHub (installed default_options (Some sentry_client) true) =
    Some (recording_hub (Some sentry_client) true) /\
  getClient (recording_hub (Some sentry_client) true) empty_world =
    (Normal (Some sentry_client), called [GetClient] empty_world) /\
  getDsn sentry_client = Some {| host := "o1.ingest.sentry.io" |} /\
  includes "https://o1.ingest.sentry.io/api/1/envelope/" "o1.ingest.sentry.io" = true /\
  (_shouldCaptureResponse (installed default_options (Some sentry_client) true) 500
     "https://o1.ingest.sentry.io/api/1/envelope/" empty_world).1 = Normal false.
Proof.
  do 4 (split; [reflexivity|]).
  apply (proj1 (sentry_requests_excluded true request_api
                  (installed default_options (Some sentry_client) true) 500
                  "https://o1.ingest.sentry.io/api/1/envelope/" empty_world)
           (recording_hub (Some sentry_client) true) sentry_client
           {| host := "o1.ingest.sentry.io" |} (called [GetClient] empty_world)
           eq_refl eq_refl eq_refl eq_refl).
Defined.

(** *** Headers and cookies are personal data *)

(** C8. When [hub.shouldSendDefaultPii()] returns [false], the handlers do
    not look at headers or cookies: two XHR responses, or two fetch
    responses, with the same status and URL lead to the same world, hence the
    same captured event, whatever their headers and cookies and whatever the
    request headers are; and every event captured carries neither request nor
    response headers or cookies. *)
Theorem no_pii_no_headers debug new_Request opts client status url method info init w :
  let self := installed opts client false in
  (forall get1 all1 headers1 get2 all2 headers2,
     _xhrResponseHandler debug self (xhr_response status url get1 all1) method headers1 w =
     _xhrResponseHandler debug self (xhr_response status url get2 all2) method headers2 w) /\
  (forall response_headers1 response_headers2,
     _fetchResponseHandler new_Request self info
       (fetch_response status url response_headers1) init w =
     _fetchResponseHandler new_Request self info
       (fetch_response status url response_headers2) init w) /\
  (forall request_url request_headers1 request_headers2 response_headers1 response_headers2,
     _fetchResponseHandler
       (fun _ _ => Normal (fetch_request request_url method request_headers1)) self info
       (fetch_response status url response_headers1) init w =
     _fetchResponseHandler
       (fun _ _ => Normal (fetch_request request_url method request_headers2)) self info
       (fetch_response status url response_headers2) init w) /\
  (forall get all headers,
     exists new,
       captured_events
         (hub_calls (_xhrResponseHandler debug self (xhr_response status url get all)
                       method headers w).2) =
       (captured_events (hub_calls w) ++ new)%list /\
       Forall without_headers_and_cookies new) /\
  (forall response_headers,
     exists new,
       captured_events
         (hub_calls (_fetchResponseHandler new_Request self info
                       (fetch_response status url response_headers) init w).2) =
       (captured_events (hub_calls w) ++ new)%list /\
       Forall without_headers_and_cookies new).
Proof.
  intros self.
  assert (Hxhr : forall get all headers,
    exists entries event,
      _xhrResponseHandler debug self (xhr_response status url get all) method headers w =
      (Normal tt,
       if _isInGivenStatusRanges self status && _isInGivenRequestTargets self url
       then if points_to_sentry client url then called [GetClient] w
            else called [CaptureEvent event]
                   (logged entries (called [GetClient; ShouldSendDefaultPii] w))
       else w) /\
      entries = [] /\
      event = _createEvent {|
        Data.url := url; Data.method := method; Data.status := status;
        Data.requestHeaders := None; Data.responseHeaders := None;
        Data.requestCookies := None; Data.responseCookies := None |}).
  { intros get all headers.
    pose proof (xhrResponseHandler_run debug opts client false
                  (xhr_response status url get all) method headers w) as H.
    cbv zeta in H. destruct H as (entries & event & Hrun & Hpii).
    exists entries, event. split; [exact Hrun | by apply Hpii]. }
  split; [|split; [|split; [|split]]].
  - intros get1 all1 headers1 get2 all2 headers2.
    destruct (Hxhr get1 all1 headers1) as (? & ? & -> & -> & ->).
    by destruct (Hxhr get2 all2 headers2) as (? & ? & -> & -> & ->).
  - intros hs1 hs2. unfold self. by rewrite !fetchResponseHandler_run.
  - intros request_url rh1 rh2 hs1 hs2. unfold self. by rewrite !fetchResponseHandler_run.
  - intros get all headers.
    destruct (Hxhr get all headers) as (? & ? & -> & -> & ->). simpl.
    destruct (_isInGivenStatusRanges self status && _isInGivenRequestTargets self url);
      [|exists []; by rewrite app_nil_r].
    destruct (points_to_sentry client url); simpl; rewrite !captured_events_app; simpl.
    + exists []. by rewrite !app_nil_r.
    + eexists [_]. rewrite app_nil_r. split; [reflexivity|].
      by repeat constructor.
  - intros hs. unfold self. rewrite fetchResponseHandler_run. fold self. simpl.
    destruct (_isInGivenStatusRanges self status && _isInGivenRequestTargets self url);
      [|exists []; by rewrite app_nil_r].
    destruct (points_to_sentry client url); simpl.
    + exists []. rewrite captured_events_app. simpl. by rewrite !app_nil_r.
    + destruct (new_Request info init) as [request|e]; simpl; rewrite captured_events_app; simpl.
      * eexists [_]. split; [reflexivity|]. by repeat constructor.
      * exists []. by rewrite !app_nil_r.
Qed.

(** C8, witness: with PII off, the event for a failed XHR request carries
    none of the response's headers and cookies. *)
Lemma no_pii_no_headers_witness :
  exists new,
    captured_events
      (hub_calls (_xhrResponseHandler true (installed default_options None false)
                    (xhr_response 500 "https://api.example.com/users"
                       (fun _ => Normal (Some "sid=abc")) (Normal "Content-Length: 12"))
                    "GET" (<["X-Token" := Some "secret"]> ∅) empty_world).2) =
    (captured_events (hub_calls empty_world) ++ new)%list /\
    Forall without_headers_and_cookies new.
Proof.
  apply (proj1 (proj2 (proj2 (proj2
           (no_pii_no_headers true request_api default_options None 500
              "https://api.example.com/users" "GET" VUndefined VUndefined empty_world))))).
Defined.

(** *** The synthesized event *)

Lemma parseInt_examples :
  parseInt "1234" = Num 1234 /\ parseInt " 42px" = Num 42 /\
  parseInt "-7" = Num (-7) /\ parseInt "" = NaN /\ parseInt "abc" = NaN.
Proof. by vm_compute. Qed.

(** C6, as amended. The event built by [_createEvent] has the message
    'HTTP Client Error with status code: <status>', exactly one exception
    value, of type 'Error', with that message as value and a mechanism of
    type 'http.client', the URL and method of the request, and a response
    context with the status code. Its [body_size] is read from the response
    headers the event itself carries: [parseInt] of the value found under
    'Content-Length' or else under 'content-length', the first that is a
    non-empty string; it is [undefined] when the event carries no response
    headers or when neither key holds a non-empty string. *)
Theorem createEvent_shape (data : Data.t) :
  let event := _createEvent data in
  let text := "HTTP Client Error with status code: " +:+ number_to_string (Data.status data) in
  message event = text /\
  exception_values event =
    [ {| exception_type := "Error"; exception_value := text;
         exception_mechanism :=
           Some {| mechanism_type := "http.client"; mechanism_handled := true |} |} ] /\
  request_url (request event) = Data.url data /\
  request_method (request event) = Data.method data /\
  status_code (contexts_response event) = Data.status data /\
  response_headers (contexts_response event) = Data.responseHeaders data /\
  (response_headers (contexts_response event) = None ->
   body_size (contexts_response event) = None) /\
  (forall headers value,
     response_headers (contexts_response event) = Some headers ->
     get headers "Content-Length" = Some value -> value <> EmptyString ->
     body_size (contexts_response event) = Some (parseInt value)) /\
  (forall headers value,
     response_headers (contexts_response event) = Some headers ->
     truthy_opt (get headers "Content-Length") = false ->
     get headers "content-length" = Some value -> value <> EmptyString ->
     body_size (contexts_response event) = Some (parseInt value)) /\
  (forall headers,
     response_headers (contexts_response event) = Some headers ->
     truthy_opt (get headers "Content-Length") = false ->
     truthy_opt (get headers "content-length") = false ->
     body_size (contexts_response event) = None).
Proof.
  intros event text. unfold event, _createEvent, addExceptionMechanism. simpl.
  do 6 (split; [reflexivity|]).
  unfold _getResponseSizeFromHeaders.
  split; [by intros ->|]. split; [|split].
  - intros headers value -> Hupper Hvalue. rewrite Hupper. simpl.
    destruct value; [done|]. simpl. done.
  - intros headers value -> Hupper Hlower Hvalue. rewrite Hlower.
    destruct (get headers "Content-Length") as [[|c s]|]; simpl in *; try done;
      by destruct value.
  - intros headers -> Hupper Hlower.
    destruct (get headers "Content-Length") as [[|c s]|]; simpl in *; try done;
      by destruct (get headers "content-length") as [[|c' s']|].
Qed.

(** C6, witness: a response with a lower-case content-length header. *)
Lemma createEvent_shape_witness :
  body_size (contexts_response (_createEvent {|
    Data.url := "https://api.example.com/users"; Data.method := "GET"; Data.status := 503;
    Data.responseHeaders := Some (<["content-length" := Some "1234"]> ∅);
    Data.responseCookies := None; Data.requestHeaders := None;
    Data.requestCookies := None |})) = Some (parseInt "1234").
Proof.
  apply (proj1 (proj2 (proj2 (proj2 (proj2 (proj2 (proj2 (proj2 (proj2
           (createEvent_shape {|
              Data.url := "https://api.example.com/users"; Data.method := "GET";
              Data.status := 503;
              Data.responseHeaders := Some (<["content-length" := Some "1234"]> ∅);
              Data.responseCookies := None; Data.requestHeaders := None;
              Data.requestCookies := None |})))))))))
           (<["content-length" := Some "1234"]> ∅) "1234");
    [reflexivity | reflexivity | reflexivity | discriminate].
Defined.

(** C6 as stated fails: the response has a content-length header of 1234,
    but with [shouldSendDefaultPii()] false the headers never reach
    [_createEvent], and the captured event has no [body_size]. *)
Lemma body_size_needs_attached_headers :
  get (_extractFetchHeaders (Response.headers response_api_500)) "content-length" = Some "1234" /\
  parseInt "1234" = Num 1234 /\
  map (fun event => body_size (contexts_response event))
    (captured_events
       (hub_calls (_fetchResponseHandler request_api (installed default_options None false)
                     VUndefined response_api_500 VUndefined empty_world).2)) = [None].
Proof. by vm_compute. Qed.

(** *** The wrappers *)

Lemma promise_then_normal {A B : Type} (p : Promise A) (f : A -> M B) w :
  exists q w', promise_then p f w = (Normal q, w').
Proof.
  unfold promise_then. destruct p as [a|e|]; [|by eexists _, _..].
  destruct (f a w) as [[b|e] w']; by eexists _, _.
Qed.

Lemma promise_catch_normal {A : Type} (p : Promise A) (f : Exn -> M A) w :
  exists q w', promise_catch p f w = (Normal q, w').
Proof.
  unfold promise_catch. destruct p as [a|e|]; [by eexists _, _| |by eexists _, _].
  destruct (f e w) as [[b|e'] w']; by eexists _, _.
Qed.

Lemma drop_promise_normal {A : Type} (p : Promise A) w :
  exists w', drop_promise p w = (Normal tt, w').
Proof. unfold drop_promise. destruct p; by eexists. Qed.

(** The wrapped fetch returns what the original fetch returns. *)
Lemma wrapped_fetch_result new_Request self originalFetch args w :
  (wrapped_fetch new_Request self originalFetch args w).1 = (originalFetch args w).1.
Proof.
  unfold wrapped_fetch. unfold mbind at 1, M_bind at 1.
  destruct (originalFetch args w) as [[responsePromise|e] w1]; [|done].
  unfold mbind at 1, M_bind at 1.
  destruct (promise_then_normal responsePromise
              (fun response =>
                 _fetchResponseHandler new_Request self (nth 0 args VUndefined) response
                   (nth 1 args VUndefined);; mret response) w1) as (handled & w2 & ->).
  unfold mbind at 1, M_bind at 1.
  destruct (promise_catch_normal handled (fun error => throw error) w2)
    as (rethrown & w3 & ->).
  unfold mbind at 1, M_bind at 1.
  by destruct (drop_promise_normal rethrown w3) as (w4 & ->).
Qed.

(** C3, evaluated where the code departs from it. On the fetch path the
    response handler runs inside the [then] reaction, unguarded: when it
    throws, here because the [Request] cannot be rebuilt, the derived
    promise is rejected, the [catch] reaction throws the error again, and
    the rejection is left unhandled, while the application still receives
    the original promise. On the XHR path the same kind of failure, here a
    hub whose [captureEvent] throws, is caught by the wrapped [onloadend]
    and logged; on the fetch path that hub's exception is unhandled as
    well. *)
Lemma fetch_handler_exception_unhandled :
  wrapped_fetch Fetching.request_unusable (installed default_options None false)
    (native_fetch (Fulfilled response_api_500)) [VRef 1] empty_world =
  (Normal (Fulfilled response_api_500),
   {| hub_calls := [GetClient]; logs := []; cells := [];
      native := [NativeFetch [VRef 1]];
      unhandled :=
        ["TypeError: Cannot construct a Request with a Request object that has already been used."] |}) /\
  wrapped_onloadend true {| _options := default_options; _getCurrentHub := Some failing_hub |}
    "GET" 0 None xhr_api_500 [] empty_world =
  (Normal VUndefined,
   {| hub_calls := [];
      logs := [("warn", ["Error while extracting response event form XHR response";
                         "capture failed"])];
      cells := []; native := []; unhandled := [] |}) /\
  unhandled
    (wrapped_fetch request_api {| _options := default_options; _getCurrentHub := Some failing_hub |}
       (native_fetch (Fulfilled response_api_500)) [VStr "/users"] empty_world).2 =
  ["capture failed"].
Proof. by vm_compute. Qed.

(** With a hub that throws, the promise derived by the wrapped fetch is
    rejected and nobody listens to it; the promise returned is the original
    one. *)
Lemma wrapped_fetch_handler_throws :
  wrapped_fetch request_api {| _options := default_options; _getCurrentHub := Some failing_hub |}
    (native_fetch (Fulfilled response_api_500)) [VStr "/users"] empty_world =
  (Normal (Fulfilled response_api_500),
   {| hub_calls := []; logs := []; cells := [];
      native := [NativeFetch [VStr "/users"]]; unhandled := ["capture failed"] |}).
Proof. reflexivity. Qed.

(** Against the recording hub, the fetch handler touches neither the native
    functions nor the [headers] objects. *)
Lemma fetchResponseHandler_frame new_Request opts client pii info response init w :
  let after := (_fetchResponseHandler new_Request (installed opts client pii)
                  info response init w).2 in
  native after = native w /\ cells after = cells w.
Proof.
  intros after. unfold after. rewrite fetchResponseHandler_run.
  destruct (_ && _); [|done].
  destruct (points_to_sentry _ _); [done|].
  by destruct (new_Request info init).
Qed.

(** C10. The wrappers pass the application's calls through. The wrapped
    fetch calls the original fetch first, on the arguments and the world it
    was given, and returns its result; what the instrumentation does
    afterwards reaches neither the native functions nor the XHR request
    headers. The wrapped [setRequestHeader] and [open] call the original
    method with the arguments they were given, in a world that differs at
    most in the instrumentation's own record of request headers; [open]
    hands the original the instance with the two wrapped members. *)
Theorem wrappers_pass_through
    debug new_Request opts client pii originalFetch args
    cell originalSetRequestHeader setRequestHeaderArgs originalOpen this openArgs w :
  let self := installed opts client pii in
  (exists w2,
     wrapped_fetch new_Request self originalFetch args w = ((originalFetch args w).1, w2) /\
     native w2 = native (originalFetch args w).2 /\
     cells w2 = cells (originalFetch args w).2) /\
  (exists w1,
     same_but_cells w w1 /\
     wrapped_setRequestHeader cell originalSetRequestHeader setRequestHeaderArgs w =
     originalSetRequestHeader setRequestHeaderArgs w1) /\
  (exists w1,
     same_but_cells w w1 /\
     wrapped_open debug self originalOpen this openArgs w =
     originalOpen
       {| setRequestHeader :=
            wrapped_setRequestHeader (List.length (cells w)) (setRequestHeader this);
          onloadend :=
            Some (wrapped_onloadend debug self (open_method openArgs)
                    (List.length (cells w)) (onloadend this)) |}
       openArgs w1).
Proof.
  intros self. split; [|split].
  - unfold wrapped_fetch. unfold mbind at 1, M_bind at 1.
    destruct (originalFetch args w) as [[responsePromise|e] w1]; [|by exists w1].
    simpl. destruct responsePromise as [response|e|].
    + unfold mbind at 1, M_bind at 1. unfold promise_then.
      unfold mbind at 1, M_bind at 1.
      pose proof (fetchResponseHandler_frame new_Request opts client pii
                    (nth 0 args VUndefined) response (nth 1 args VUndefined) w1) as Hframe.
      cbv zeta in Hframe. fold self in Hframe.
      destruct (_fetchResponseHandler new_Request self (nth 0 args VUndefined) response
                  (nth 1 args VUndefined) w1) as [[[]|e] w2]; simpl in Hframe.
      * eexists. by split.
      * eexists. by split.
    + eexists. by split.
    + eexists. by split.
  - eexists. split; [|reflexivity]. by repeat split.
  - eexists. split; [|reflexivity]. by repeat split.
Qed.

(** Through all three wrappers the native functions see the very calls the
    application made. *)
Lemma native_calls_unchanged :
  native (wrapped_fetch request_api (installed default_options (Some sentry_client) true)
            (native_fetch (Fulfilled response_api_500))
            [VStr "/users"; VRef 3] empty_world).2 =
    [NativeFetch [VStr "/users"; VRef 3]] /\
  native (wrapped_open true (installed default_options (Some sentry_client) true) native_open
            {| setRequestHeader := native_setRequestHeader; onloadend := None |}
            {| open_method := "POST"; open_rest := [VStr "/users"; VBool true] |}
            empty_world).2 =
    [NativeOpen "POST" [VStr "/users"; VBool true]] /\
  native (wrapped_setRequestHeader 0 native_setRequestHeader
            {| header_name := "X-Token"; header_value := "t"; header_rest := [] |}
            empty_world).2 =
    [NativeSetRequestHeader "X-Token" "t" []].
Proof. by vm_compute. Qed.

(** [setupOnce] installs the hub and replaces both globals. *)
Lemma setupOnce_installs debug new_Request options client pii global :
  supportsNativeFetch global = true ->
  has_XMLHttpRequest global = true ->
  let self := installed (spread default_options options) client pii in
  let result := setupOnce debug new_Request (constructor options) (recording_hub client pii) global in
  result.1 = self /\
  fetch result.2 = wrapped_fetch new_Request self (fetch global) /\
  XMLHttpRequest_open result.2 = wrapped_open debug self (XMLHttpRequest_open global).
Proof.
  intros Hfetch Hxhr. unfold setupOnce, _wrapXHR, _wrapFetch. simpl.
  rewrite Hfetch. simpl. by rewrite Hxhr.
Qed.

(** One XHR from [open] to [loadend]: the natives see the application's
    three calls, and with PII on the captured event carries the request
    header that went through the wrapped [setRequestHeader]. *)
Lemma xhr_session_trace :
  let after := (xhr_session true (installed default_options (Some sentry_client) true)
                  empty_world).2 in
  native after =
    [NativeOpen "POST" [VStr "/users"; VBool true];
     NativeSetRequestHeader "X-Token" "t0k3n" [];
     NativeOnloadend [VRef 9]] /\
  map (fun event => request_headers (request event)) (captured_events (hub_calls after)) =
    [Some {["X-Token" := Some "t0k3n"]}] /\
  map (fun event => body_size (contexts_response event)) (captured_events (hub_calls after)) =
    [Some (Num 1234)].
Proof. by vm_compute. Qed.

End HttpclientFacts.

(** ** The DOM breadcrumb handler *)
Section HandleDomFacts.
Import HandleDom.

Lemma extract_target_spec handlerData :
  (extract_target handlerData).1 = (try_block handlerData).1 /\
  (extract_target handlerData).2 =
    match (try_block handlerData).2 with
    | Normal target => target
    | Throw _ => "<unknown>"
    end.
Proof.
  unfold extract_target. destruct (try_block handlerData) as [targetNode [target|e]]; done.
Qed.

Lemma length_zero_iff (s : string) : Nat.eqb (String.length s) 0 = true <-> s = EmptyString.
Proof. by destruct s. Qed.

(** C4, as amended. An exception raised while reading
    [handlerData.event.target] or while stringifying the DOM tree is caught
    and the message becomes '<unknown>'. [handleDom] returns [null] exactly
    when the stringification returned the empty string. In every other case
    it returns a breadcrumb record, provided that evaluating
    [handlerData.name] in the category template and the lookup in the rrweb
    mirror do not throw: these two are evaluated outside the [try] block. *)
Theorem handleDom_guarded_extraction (now : Z) (handlerData : HandlerData) :
  let outcome := (try_block handlerData).2 in
  let target := (extract_target handlerData).2 in
  (forall e, outcome = Throw e -> target = "<unknown>") /\
  (forall s, outcome = Normal s -> target = s) /\
  (handleDom now handlerData = Normal None <-> outcome = Normal EmptyString) /\
  (outcome <> Normal EmptyString ->
   forall name,
     read_name handlerData = Normal name ->
     (forall node,
        (extract_target handlerData).1 = Some node -> is_truthy node = true ->
        exists id, mirror_getId node = Normal id) ->
     exists breadcrumb,
       handleDom now handlerData = Normal (Some breadcrumb) /\
       message breadcrumb = target).
Proof.
  cbv zeta.
  destruct (extract_target_spec handlerData) as [_ Htarget].
  unfold handleDom.
  destruct (extract_target handlerData) as [targetNode target]. simpl in *.
  destruct ((try_block handlerData).2) as [s|e]; subst target.
  - split; [done|]. split; [by intros ? [= ->]|]. split.
    + destruct s as [|c s]; simpl; [done|]. split; [|done].
      destruct (read_name handlerData); [|done].
      destruct targetNode as [node|]; [|done].
      destruct (is_truthy node); [|done]. by destruct (mirror_getId node).
    + intros Hne name -> Hmirror. destruct s as [|c s]; [done|]. simpl.
      destruct targetNode as [node|]; [|by eexists].
      destruct (is_truthy node) eqn:Htruthy; [|by eexists].
      destruct (Hmirror node eq_refl Htruthy) as [id ->]. by eexists.
  - split; [done|]. split; [done|]. split.
    + simpl. split; [|done].
      destruct (read_name handlerData); [|done].
      destruct targetNode as [node|]; [|done].
      destruct (is_truthy node); [|done]. by destruct (mirror_getId node).
    + intros _ name -> Hmirror. simpl.
      destruct targetNode as [node|]; [|by eexists].
      destruct (is_truthy node) eqn:Htruthy; [|by eexists].
      destruct (Hmirror node eq_refl Htruthy) as [id ->]. by eexists.
Qed.

(** C4, witness: the stringification of the clicked node throws. *)
Lemma handleDom_guarded_extraction_witness :
  (try_block (click_on hostile_node)).2 = Throw "Permission denied" /\
  (extract_target (click_on hostile_node)).2 = "<unknown>" /\
  exists breadcrumb,
    handleDom 1700000000123 (click_on hostile_node) = Normal (Some breadcrumb) /\
    message breadcrumb = (extract_target (click_on hostile_node)).2.
Proof.
  split; [reflexivity|]. split.
  - apply (proj1 (handleDom_guarded_extraction 1700000000123 (click_on hostile_node))
             "Permission denied" eq_refl).
  - apply (proj2 (proj2 (proj2
             (handleDom_guarded_extraction 1700000000123 (click_on hostile_node)))))
      with (name := "click").
    + discriminate.
    + reflexivity.
    + intros node Hnode _. exists 23. simpl in Hnode. by simplify_eq.
Defined.

(** C4 as stated fails: on [undefined] (or [null]) the exception of the
    [try] block is caught, the message is '<unknown>', and building the
    category then throws outside the [try] block. *)
Lemma handleDom_raises_on_nullish :
  handleDom 1700000000123 DataNullish =
  Throw "TypeError: Cannot read properties of undefined (reading 'name')".
Proof. reflexivity. Qed.

(** C5. A non-null result of [handleDom] is a record of the five fields
    [timestamp], [type], [category], [message] and [data]: the current time
    in seconds, 'default', 'ui.' followed by [handlerData.name], the
    stringified target, and a map whose only key [nodeId] holds the rrweb
    mirror id of the target node, or [undefined] when there is no target
    node. In terms of the argument: the argument is a value whose name
    evaluates to a string; when [event.target] can be read, the target node
    is [event.target] if that is truthy and the event itself otherwise, the
    message is what [htmlTreeAsString] returns for that node ('<unknown>' if
    it throws), and [nodeId] is what the mirror returns for it if it is
    truthy; when the target cannot be read there is no target node, the
    message is '<unknown>' and [nodeId] is [undefined]. *)
Theorem handleDom_breadcrumb (now : Z) (handlerData : HandlerData) (breadcrumb : Breadcrumb) :
  handleDom now handlerData = Normal (Some breadcrumb) ->
  timestamp breadcrumb = (inject_Z now / 1000)%Q /\
  type breadcrumb = "default" /\
  exists event name,
    handlerData = DataValue event (Normal name) /\
    category breadcrumb = "ui." +:+ name /\
    match event with
    | Normal (EventValue (Normal target) self) =>
        let node := if is_truthy target then target else self in
        message breadcrumb =
          match htmlTreeAsString node with
          | Normal text => text
          | Throw _ => "<unknown>"
          end /\
        (is_truthy node = true ->
         exists id,
           mirror_getId node = Normal id /\ data breadcrumb = {["nodeId" := Some id]}) /\
        (is_truthy node = false -> data breadcrumb = {["nodeId" := None]})
    | _ =>
        message breadcrumb = "<unknown>" /\ data breadcrumb = {["nodeId" := None]}
    end.
Proof.
  destruct handlerData as [|event [name|e]]; [done| |].
  - intros Hresult.
    assert (Hfields : timestamp breadcrumb = (inject_Z now / 1000)%Q /\
                      type breadcrumb = "default" /\
                      category breadcrumb = "ui." +:+ name).
    { revert Hresult. unfold handleDom.
      destruct (extract_target _) as [targetNode text].
      destruct (Nat.eqb _ 0); [done|]. simpl.
      destruct targetNode as [node|]; [destruct (is_truthy node);
        [destruct (mirror_getId node); [|done]|]|];
        intros [= <-]; done. }
    destruct Hfields as (Htime & Htype & Hcategory).
    split; [done|]. split; [done|]. exists event, name.
    split; [done|]. split; [done|].
    revert Hresult. unfold handleDom, extract_target, try_block. simpl.
    destruct event as [[|[target|e] self]|e]; simpl;
      try (intros [= <-]; done).
    set (node := if is_truthy target then target else self).
    destruct (htmlTreeAsString node) as [[|c text]|e]; simpl; [done| |].
    + destruct (is_truthy node) eqn:Htruthy.
      * destruct (mirror_getId node) as [id|e]; [|done].
        intros [= <-]. simpl. split; [done|]. split; [by exists id | done].
      * intros [= <-]. simpl. by repeat split.
    + destruct (is_truthy node) eqn:Htruthy.
      * destruct (mirror_getId node) as [id|e']; [|done].
        intros [= <-]. simpl. split; [done|]. split; [by exists id | done].
      * intros [= <-]. simpl. by repeat split.
  - unfold handleDom. destruct (extract_target _) as [targetNode text].
    by destruct (Nat.eqb _ 0).
Qed.

(** C5, witness: a click on a button known to the rrweb mirror. *)
Lemma handleDom_breadcrumb_witness :
  handleDom 1700000000123 (click_on button) =
    Normal (Some {| timestamp := (inject_Z 1700000000123 / 1000)%Q; type := "default";
                    category := "ui.click"; message := "body > button#save";
                    data := {["nodeId" := Some 17]} |}) /\
  exists event name,
    click_on button = DataValue event (Normal name) /\
    category {| timestamp := (inject_Z 1700000000123 / 1000)%Q; type := "default";
                category := "ui.click"; message := "body > button#save";
                data := {["nodeId" := Some 17]} |} = "ui." +:+ name.
Proof.
  split; [reflexivity|].
  destruct (handleDom_breadcrumb 1700000000123 (click_on button)
              {| timestamp := (inject_Z 1700000000123 / 1000)%Q; type := "default";
                 category := "ui.click"; message := "body > button#save";
                 data := {["nodeId" := Some 17]} |} eq_refl)
    as (_ & _ & event & name & Hdata & Hcategory & _).
  by exists event, name.
Defined.

End HandleDomFacts.

(** ** The breadcrumb ring *)
Section BreadcrumbRingFacts.
Import BreadcrumbRing.
Context {A : Type}.
Implicit Types (store : gmap nat (list A)) (ring : @BreadcrumbRing.t) (entries : list A).

Lemma most_recent_length N entries : (List.length (most_recent N entries) <= N)%nat.
Proof. unfold most_recent. rewrite length_drop. lia. Qed.

Lemma most_recent_exceeding N entries :
  (N < List.length entries)%nat -> List.length (most_recent N entries) = N.
Proof. unfold most_recent. rewrite length_drop. lia. Qed.

(** One [push] on a ring within its capacity keeps the most recent entries. *)
Lemma push_most_recent N (b : A) entries :
  (List.length entries <= N)%nat ->
  push N b entries = most_recent N (entries ++ [b])%list.
Proof.
  intros Hlen. unfold push, most_recent. rewrite length_app. simpl.
  destruct (Nat.eqb_spec N 0) as [->|Hpos].
  - replace (List.length entries + 1 - 0)%nat with (List.length (entries ++ [b])%list)
      by (rewrite length_app; simpl; lia).
    by rewrite drop_all.
  - destruct (Nat.ltb_spec (List.length entries) N) as [Hlt|Hge].
    + by replace (List.length entries + 1 - N)%nat with 0%nat by lia.
    + replace (List.length entries + 1 - N)%nat with 1%nat by lia.
      destruct entries as [|a entries]; [simpl in *; lia | done].
Qed.

Lemma most_recent_snoc N (b : A) entries :
  most_recent N (most_recent N entries ++ [b])%list = most_recent N (entries ++ [b])%list.
Proof.
  unfold most_recent. rewrite !length_app, length_drop. simpl.
  destruct (Nat.le_gt_cases (List.length entries) N) as [Hle|Hgt].
  - replace (List.length entries - N)%nat with 0%nat by lia.
    by rewrite drop_0, Nat.sub_0_r.
  - destruct (Nat.eq_dec N 0) as [->|Hpos].
    + rewrite !drop_ge; [done | rewrite length_app; simpl; lia |].
      rewrite length_app, length_drop. simpl. lia.
    + rewrite drop_app_le by (rewrite length_drop; lia).
      rewrite drop_drop.
      rewrite drop_app_le by lia. f_equal. f_equal. lia.
Qed.

(** The pure content of the ring after a sequence of [push]es. *)
Lemma foldl_push N (earlier breadcrumbs : list A) :
  foldl (fun entries b => push N b entries) (most_recent N earlier) breadcrumbs =
  most_recent N (earlier ++ breadcrumbs)%list.
Proof.
  induction breadcrumbs as [|b breadcrumbs IH] using rev_ind; [by rewrite app_nil_r|].
  rewrite foldl_snoc, IH, push_most_recent by apply most_recent_length.
  by rewrite most_recent_snoc, app_assoc.
Qed.

Lemma contents_add ring (b : A) store :
  contents ring (add ring b store) = push (capacity ring) b (contents ring store).
Proof. unfold contents, add. by rewrite lookup_insert_eq. Qed.

Lemma add_other ring (b : A) store (l : nat) :
  l <> buffer ring -> add ring b store !! l = store !! l.
Proof. intros Hne. unfold add. by rewrite lookup_insert_ne. Qed.

Lemma add_all_other ring (bs : list A) store (l : nat) :
  l <> buffer ring -> add_all ring bs store !! l = store !! l.
Proof.
  intros Hne. revert store. unfold add_all.
  induction bs as [|b bs IH]; intros store; simpl; [done|].
  by rewrite IH, add_other.
Qed.

Lemma contents_add_all ring (bs : list A) store :
  contents ring (add_all ring bs store) =
  foldl (fun entries b => push (capacity ring) b entries) (contents ring store) bs.
Proof.
  revert store. unfold add_all.
  induction bs as [|b bs IH]; intros store; simpl; [done|].
  by rewrite IH, contents_add.
Qed.

Lemma add_all_keeps_buffer ring (bs : list A) store :
  is_Some (store !! buffer ring) -> is_Some (add_all ring bs store !! buffer ring).
Proof.
  revert store. unfold add_all.
  induction bs as [|b bs IH]; intros store Hsome; simpl; [done|].
  apply IH. unfold add. rewrite lookup_insert_eq. by eexists.
Qed.

(** C7. Whatever sequence of breadcrumbs is added to a new ring of capacity
    [N], a snapshot holds at most [N] entries: the [N] most recent ones,
    oldest first, that is the sequence without its oldest
    [length - N] entries, and exactly [N] of them once more than [N] were
    added. The snapshot is a sequence of its own: additions made to the ring
    afterwards leave it as it was, while the ring moves on. *)
Theorem ring_snapshot (N : nat) store (breadcrumbs later : list A) :
  let ring := (create N store).1 in
  let s1 := (create N store).2 in
  let s2 := add_all ring breadcrumbs s1 in
  let snap := (snapshot ring s2).1 in
  let s3 := (snapshot ring s2).2 in
  let s4 := add_all ring later s3 in
  s3 !! snap = Some (most_recent N breadcrumbs) /\
  (List.length (most_recent N breadcrumbs) <= N)%nat /\
  (exists older,
     breadcrumbs = (older ++ most_recent N breadcrumbs)%list /\
     List.length older = (List.length breadcrumbs - N)%nat) /\
  ((N < List.length breadcrumbs)%nat -> List.length (most_recent N breadcrumbs) = N) /\
  s4 !! snap = Some (most_recent N breadcrumbs) /\
  contents ring s4 = most_recent N (breadcrumbs ++ later)%list.
Proof.
  intros ring s1 s2 snap s3 s4.
  assert (Hfresh1 : s1 !! buffer ring = Some []).
  { unfold s1, ring, create. simpl. by rewrite lookup_insert_eq. }
  assert (Hs2 : contents ring s2 = most_recent N breadcrumbs).
  { unfold s2. rewrite contents_add_all. unfold contents at 1. rewrite Hfresh1. simpl.
    change (@nil A) with (most_recent N (@nil A)). by rewrite foldl_push. }
  assert (Hne : snap <> buffer ring).
  { unfold snap, snapshot. simpl. intros Heq.
    pose proof (is_fresh (dom s2)) as Hnotin. rewrite Heq in Hnotin.
    apply Hnotin, elem_of_dom. apply add_all_keeps_buffer. by rewrite Hfresh1. }
  assert (Hs3 : s3 !! snap = Some (most_recent N breadcrumbs)).
  { unfold s3, snap, snapshot. simpl. by rewrite lookup_insert_eq, Hs2. }
  split; [done|]. split; [apply most_recent_length|]. split.
  { exists (take (List.length breadcrumbs - N) breadcrumbs). unfold most_recent.
    rewrite take_drop, length_take. split; [done | lia]. }
  split; [apply most_recent_exceeding|]. split.
  - unfold s4. by rewrite add_all_other.
  - unfold s4. rewrite contents_add_all.
    replace (contents ring s3) with (most_recent N breadcrumbs); [apply foldl_push|].
    rewrite <- Hs2. unfold contents, s3, snapshot. simpl.
    by rewrite lookup_insert_ne.
Qed.

End BreadcrumbRingFacts.

(** C7, witness: the scenario of the specification. Capacity 2; A, B and C
    are added; the snapshot is [B; C], also after D and E were added. *)
Lemma ring_snapshot_witness :
  (2 < List.length ["A"; "B"; "C"])%nat /\
  BreadcrumbRing.scenario ["A"; "B"; "C"] ["D"; "E"] = Some ["B"; "C"] /\
  List.length (BreadcrumbRing.most_recent 2 ["A"; "B"; "C"]) = 2%nat.
Proof.
  split; [simpl; lia|]. split; [by vm_compute|].
  apply (proj1 (proj2 (proj2 (proj2
           (ring_snapshot 2 (∅ : gmap nat (list string)) ["A"; "B"; "C"] ["D"; "E"]))))).
  simpl. lia.
Defined.

(** ** Further properties of the HttpClient integration *)
Section SplitFacts.
Import Httpclient Formats.

Lemma free_of_cons (d c : ascii) (s : string) :
  free_of d (String c s) <-> c <> d /\ free_of d s.
Proof.
  unfold free_of. cbn [includes]. rewrite orb_false_iff. simpl.
  destruct (Ascii.ascii_dec d c) as [->|Hne].
  - destruct s; split; intros H; destruct H; done.
  - split; [intros [_ H]; split; [congruence | done] | intros [_ H]; by split].
Qed.

Lemma free_of_nil (d : ascii) : free_of d EmptyString.
Proof. done. Qed.

Lemma free_of_app (d : ascii) (s t : string) :
  free_of d (s +:+ t) <-> free_of d s /\ free_of d t.
Proof.
  induction s as [|c s IH].
  - split; [intros H; split; [apply free_of_nil | done] | by intros [_ H]].
  - rewrite append_cons, !free_of_cons, IH. tauto.
Qed.

Lemma prefix_cons_ne (d c : ascii) (sep' s : string) :
  c <> d -> String.prefix (String d sep') (String c s) = false.
Proof. intros Hne. simpl. destruct (Ascii.ascii_dec d c); [congruence | done]. Qed.

(** A piece without the separator's first character is collected whole. *)
Lemma split_go_last (d : ascii) (sep' piece cur : string) :
  free_of d piece ->
  split_go (String d sep') piece 0 cur = [cur +:+ piece].
Proof.
  revert cur. induction piece as [|c piece IH]; intros cur Hfree.
  - simpl. by rewrite append_nil_r.
  - apply free_of_cons in Hfree as [Hne Hfree]. cbn [split_go].
    rewrite prefix_cons_ne by done. rewrite IH by done.
    by rewrite append_assoc.
Qed.

Lemma split_go_piece (d : ascii) (sep' piece rest cur : string) :
  free_of d piece ->
  split_go (String d sep') (piece +:+ String d sep' +:+ rest) 0 cur =
  (cur +:+ piece) :: split_go (String d sep') rest 0 EmptyString.
Proof.
  revert cur. induction piece as [|c piece IH]; intros cur Hfree.
  - change (EmptyString +:+ String d sep' +:+ rest) with (String d (sep' +:+ rest)).
    cbn [split_go].
    replace (String.prefix (String d sep') (String d (sep' +:+ rest))) with true
      by (symmetry; apply prefix_spec; by exists rest).
    replace (String.length (String d sep') - 1)%nat with (String.length sep')
      by (simpl; lia).
    by rewrite split_go_skip, append_nil_r.
  - apply free_of_cons in Hfree as [Hne Hfree]. rewrite append_cons. cbn [split_go].
    rewrite prefix_cons_ne by done. rewrite IH by done.
    by rewrite append_assoc.
Qed.

(** [split] undoes [join] on pieces that are free of the separator's first
    character. *)
Lemma split_join (d : ascii) (sep' : string) (pieces : list string) :
  pieces <> [] ->
  Forall (free_of d) pieces ->
  split (join (String d sep') pieces) (String d sep') = pieces.
Proof.
  intros Hne Hfree. unfold split.
  induction pieces as [|piece pieces IH]; [done|].
  apply Forall_cons in Hfree as [Hpiece Hfree].
  destruct pieces as [|next pieces].
  - simpl. by rewrite split_go_last.
  - rewrite join_cons, split_go_piece by done. f_equal. by apply IH.
Qed.

End SplitFacts.

Section FormatFacts.
Import Httpclient Formats.

Lemma assign_lookup_ne (obj : JsObj) (key other : string) (value : option string) :
  other <> key -> assign obj key value !! other = obj !! other.
Proof.
  intros Hne. unfold assign. destruct (String.eqb key "__proto__"); [done|].
  by rewrite lookup_insert_ne.
Qed.

Lemma assign_lookup_eq (obj : JsObj) (key : string) (value : option string) :
  key <> "__proto__" -> assign obj key value !! key = Some value.
Proof.
  intros Hne. unfold assign. destruct (String.eqb_spec key "__proto__"); [done|].
  apply lookup_insert_eq.
Qed.

(** No assignment creates an own property named ['__proto__']. *)
Lemma assign_lookup_proto (obj : JsObj) (key : string) (value : option string) :
  assign obj key value !! "__proto__" = obj !! "__proto__".
Proof.
  unfold assign. destruct (String.eqb_spec key "__proto__") as [->|Hne]; [done|].
  by rewrite lookup_insert_ne.
Qed.

Lemma assign_all_app (a b : list (string * string)) (obj : JsObj) :
  assign_all (a ++ b) obj = assign_all b (assign_all a obj).
Proof. unfold assign_all. apply fold_left_app. Qed.

Lemma assign_all_step (kv : string * string) (pairs : list (string * string)) (obj : JsObj) :
  assign_all (kv :: pairs) obj = assign_all pairs (assign obj kv.1 (Some kv.2)).
Proof. reflexivity. Qed.

Lemma assign_all_other (pairs : list (string * string)) (obj : JsObj) (key : string) :
  key ∉ pairs.*1 -> assign_all pairs obj !! key = obj !! key.
Proof.
  revert obj. induction pairs as [|[k v] pairs IH]; intros obj Hnot; [done|].
  simpl in Hnot. apply not_elem_of_cons in Hnot as [Hne Hnot].
  rewrite assign_all_step, IH by done. by apply assign_lookup_ne.
Qed.

Lemma assign_all_proto (pairs : list (string * string)) (obj : JsObj) :
  assign_all pairs obj !! "__proto__" = obj !! "__proto__".
Proof.
  revert obj. induction pairs as [|[k v] pairs IH]; intros obj; [done|].
  by rewrite assign_all_step, IH, assign_lookup_proto.
Qed.

(** The last assignment to a key decides its value. *)
Lemma assign_all_last (before after : list (string * string)) (obj : JsObj)
    (key value : string) :
  key <> "__proto__" ->
  key ∉ after.*1 ->
  assign_all (before ++ (key, value) :: after) obj !! key = Some (Some value).
Proof.
  intros Hproto Hnot. rewrite assign_all_app, assign_all_step.
  rewrite assign_all_other by done. by apply assign_lookup_eq.
Qed.

Lemma read_own (obj : JsObj) (key value : string) :
  obj !! key = Some (Some value) -> read obj key = ReadString value.
Proof. unfold read. by intros ->. Qed.

Lemma read_absent (obj : JsObj) (key : string) :
  obj !! key = None -> key ∉ object_prototype_names -> read obj key = ReadUndefined.
Proof. unfold read. intros -> Hnot. by rewrite bool_decide_eq_false_2. Qed.

Lemma read_proto (obj : JsObj) :
  obj !! "__proto__" = None -> read obj "__proto__" = ReadInherited.
Proof. unfold read. by intros ->. Qed.

(** On the keys that the sources read, [get] is [read]. *)
Lemma read_get (obj : JsObj) (key : string) :
  key ∉ object_prototype_names ->
  read obj key = match get obj key with Some s => ReadString s | None => ReadUndefined end.
Proof.
  intros Hnot. unfold read, get. destruct (obj !! key) as [[s|]|]; [done..|].
  by rewrite bool_decide_eq_false_2.
Qed.

Lemma keys_read_by_the_sources :
  Forall (fun key => key ∉ object_prototype_names)
    ["Content-Length"; "content-length"; "Cookie"; "cookie"; "Set-Cookie"; "set-cookie"].
Proof.
  repeat constructor; apply (bool_decide_unpack _); by vm_compute.
Qed.

Lemma truthy_app (s t : string) : truthy (s +:+ t) = truthy s || truthy t.
Proof. by destruct s. Qed.

Lemma join_cons_ne (sep piece : string) (rest : list string) :
  rest <> [] -> join sep (piece :: rest) = piece +:+ sep +:+ join sep rest.
Proof. by destruct rest. Qed.

(** X4. [_extractFetchHeaders]: reading a header name gives the value of
    its last entry in the iteration; a name without entry reads as
    [undefined] unless it names a member of [Object.prototype]; and an
    entry named ['__proto__'] is not stored: that name keeps reading as the
    inherited member. *)
Theorem extractFetchHeaders_lookup (headers : list (string * string)) (name : string) :
  (name ∉ headers.*1 -> name ∉ object_prototype_names ->
   read (_extractFetchHeaders headers) name = ReadUndefined) /\
  (forall before value after,
     headers = (before ++ (name, value) :: after)%list ->
     name ∉ after.*1 ->
     name <> "__proto__" ->
     read (_extractFetchHeaders headers) name = ReadString value) /\
  read (_extractFetchHeaders headers) "__proto__" = ReadInherited.
Proof.
  change (_extractFetchHeaders headers) with (assign_all headers ∅). split; [|split].
  - intros Hnot Hinherited. apply read_absent; [|done]. by rewrite assign_all_other.
  - intros before value after -> Hnot Hproto. apply read_own. by apply assign_all_last.
  - apply read_proto. by rewrite assign_all_proto.
Qed.

(** X4, witness. *)
Lemma extractFetchHeaders_lookup_witness :
  read (_extractFetchHeaders
          [("content-type", "text/html"); ("x-a", "1"); ("content-type", "application/json")])
    "content-type" = ReadString "application/json".
Proof.
  apply (proj1 (proj2 (extractFetchHeaders_lookup
                         [("content-type", "text/html"); ("x-a", "1");
                          ("content-type", "application/json")] "content-type"))
           [("content-type", "text/html"); ("x-a", "1")] "application/json" []).
  - reflexivity.
  - simpl. apply not_elem_of_nil.
  - discriminate.
Defined.

Lemma parse_cookies_fold (pairs : list (string * string)) (acc : JsObj) :
  Forall (fun kv => free_of "="%char kv.1 /\ free_of "="%char kv.2) pairs ->
  fold_left
    (fun (acc : JsObj) (cookie : string) =>
       match split cookie "=" with
       | key :: rest => assign acc key (head rest)
       | [] => assign acc "undefined" None
       end)
    (map cookie_pair pairs) acc =
  assign_all pairs acc.
Proof.
  revert acc. induction pairs as [|[k v] pairs IH]; intros acc Hfree; [done|].
  apply Forall_cons in Hfree as [[Hk Hv] Hfree]. simpl in Hk, Hv.
  cbn [map fold_left].
  replace (split (cookie_pair (k, v)) "=") with [k; v].
  - simpl head. rewrite IH by done. done.
  - symmetry. apply (split_join "="%char EmptyString [k; v]); [done|].
    by repeat constructor.
Qed.

(** X5. [_parseCookieString] reads back a cookie header: for names and
    values free of [';'] and ['='], the object is the one that assigning
    each pair in turn builds: a name other than ['__proto__'] reads as the
    value of its last pair, a pair named ['__proto__'] leaves no entry, and
    a name without pair reads as [undefined] unless it names a member of
    [Object.prototype]. *)
Theorem parseCookieString_cookie_string (pairs : list (string * string)) :
  pairs <> [] ->
  Forall (fun kv => (free_of ";"%char kv.1 /\ free_of ";"%char kv.2) /\
                    (free_of "="%char kv.1 /\ free_of "="%char kv.2)) pairs ->
  _parseCookieString (cookie_string pairs) = assign_all pairs ∅ /\
  (forall before name value after,
     pairs = (before ++ (name, value) :: after)%list ->
     name ∉ after.*1 ->
     name <> "__proto__" ->
     read (_parseCookieString (cookie_string pairs)) name = ReadString value) /\
  (forall name,
     name ∉ pairs.*1 -> name ∉ object_prototype_names ->
     read (_parseCookieString (cookie_string pairs)) name = ReadUndefined) /\
  read (_parseCookieString (cookie_string pairs)) "__proto__" = ReadInherited.
Proof.
  intros Hne Hfree.
  assert (Hparse : _parseCookieString (cookie_string pairs) = assign_all pairs ∅).
  { unfold _parseCookieString, cookie_string.
    rewrite (split_join ";"%char " " (map cookie_pair pairs)).
    - apply parse_cookies_fold. eapply Forall_impl; [exact Hfree|]. by intros kv [_ H].
    - by destruct pairs.
    - apply Forall_fmap. eapply Forall_impl; [exact Hfree|].
      intros [k v] [[Hk Hv] _]. simpl in *. unfold cookie_pair. simpl.
      apply free_of_app. split; [done|]. by apply free_of_app. }
  rewrite Hparse. split; [done|]. split; [|split].
  - intros before name value after -> Hnot Hproto. apply read_own. by apply assign_all_last.
  - intros name Hnot Hinherited. apply read_absent; [|done]. by rewrite assign_all_other.
  - apply read_proto. by rewrite assign_all_proto.
Qed.

(** X5, witness. *)
Lemma parseCookieString_cookie_string_witness :
  cookie_string [("sid", "abc"); ("theme", "dark"); ("sid", "xyz")] =
    "sid=abc; theme=dark; sid=xyz" /\
  read (_parseCookieString (cookie_string [("sid", "abc"); ("theme", "dark"); ("sid", "xyz")]))
    "sid" = ReadString "xyz".
Proof.
  split; [reflexivity|].
  apply (proj1 (proj2 (parseCookieString_cookie_string
                         [("sid", "abc"); ("theme", "dark"); ("sid", "xyz")]
                         ltac:(discriminate) ltac:(repeat constructor)))
           [("sid", "abc"); ("theme", "dark")] "sid" "xyz" []).
  - reflexivity.
  - simpl. apply not_elem_of_nil.
  - discriminate.
Defined.

(** X6. [_parseCookieString] on a single cookie whose name is not
    ['__proto__']: without ['='] the name is kept with the value
    [undefined]; a value that contains ['='] is cut at its first ['=']. A
    cookie named ['__proto__'] gives the empty object. *)
Theorem parseCookieString_single (name value rest : string) :
  free_of ";"%char name -> free_of "="%char name ->
  free_of ";"%char value -> free_of "="%char value ->
  free_of ";"%char rest ->
  (name <> "__proto__" ->
   _parseCookieString name = {[name := None]} /\
   _parseCookieString (name +:+ "=" +:+ value) = {[name := Some value]} /\
   _parseCookieString (name +:+ "=" +:+ value +:+ "=" +:+ rest) = {[name := Some value]}) /\
  _parseCookieString ("__proto__" +:+ "=" +:+ value) = ∅ /\
  _parseCookieString ("__proto__" +:+ "=" +:+ value +:+ "=" +:+ rest) = ∅.
Proof.
  intros Hn1 Hn2 Hv1 Hv2 Hr.
  assert (Heq : free_of ";"%char "=") by done.
  assert (Hp1 : free_of ";"%char "__proto__") by done.
  assert (Hp2 : free_of "="%char "__proto__") by done.
  assert (Hone : forall key,
            free_of ";"%char key -> free_of "="%char key ->
            _parseCookieString key = assign ∅ key None /\
            _parseCookieString (key +:+ "=" +:+ value) = assign ∅ key (Some value) /\
            _parseCookieString (key +:+ "=" +:+ value +:+ "=" +:+ rest) =
              assign ∅ key (Some value)).
  { intros key Hk1 Hk2. unfold _parseCookieString, split. split; [|split].
    - rewrite split_go_last by done. simpl fold_left.
      change (EmptyString +:+ key) with key.
      by rewrite split_go_last.
    - rewrite split_go_last by (rewrite !free_of_app; done). simpl fold_left.
      change (EmptyString +:+ ?s) with s.
      rewrite split_go_piece by done. by rewrite split_go_last.
    - rewrite split_go_last by (rewrite !free_of_app; done). simpl fold_left.
      change (EmptyString +:+ ?s) with s.
      rewrite !split_go_piece by done.
      by destruct (split_go_cons "=" rest 0 EmptyString) as (piece & pieces & ->). }
  split.
  - intros Hproto. destruct (Hone name Hn1 Hn2) as (-> & -> & ->).
    unfold assign. by destruct (String.eqb_spec name "__proto__").
  - by destruct (Hone "__proto__" Hp1 Hp2) as (_ & -> & ->).
Qed.

(** X6, witness. *)
Lemma parseCookieString_single_witness :
  _parseCookieString ("token" +:+ "=" +:+ "YWJj" +:+ "=" +:+ "=") = {["token" := Some "YWJj"]}.
Proof.
  apply (proj1 (parseCookieString_single "token" "YWJj" "="
                  eq_refl eq_refl eq_refl eq_refl eq_refl)).
  discriminate.
Defined.

Lemma parse_lines_fold (lines : list (string * string)) (acc : JsObj) :
  Forall (fun nv => free_of ":"%char nv.1 /\ free_of ":"%char nv.2) lines ->
  fold_left
    (fun (acc : JsObj) (line : string) =>
       match split line ": " with
       | key :: rest => assign acc key (head rest)
       | [] => assign acc "undefined" None
       end)
    (map header_line lines) acc =
  assign_all lines acc.
Proof.
  revert acc. induction lines as [|[n v] lines IH]; intros acc Hfree; [done|].
  apply Forall_cons in Hfree as [[Hn Hv] Hfree]. simpl in Hn, Hv.
  cbn [map fold_left].
  replace (split (header_line (n, v)) ": ") with [n; v].
  - simpl head. by rewrite IH.
  - symmetry. apply (split_join ":"%char " " [n; v]); [done|].
    by repeat constructor.
Qed.

(** X7. [_getXHRResponseHeaders] on the block the browser returns, one
    [name: value] line per header, each ended by CR LF (names and values
    free of CR and [':']): the object is the one that assigning each line in
    turn builds, with the key [''] added, holding [undefined], for the
    empty piece after the last CR LF. A non-empty name other than
    ['__proto__'] reads as the value of its last line; a line named
    ['__proto__'] leaves no entry. An empty block gives the empty object. *)
Theorem getXHRResponseHeaders_block (xhr : XMLHttpRequest.t) (lines : list (string * string)) :
  Forall (fun nv =>
            (free_of (ascii_of_nat 13) nv.1 /\ free_of (ascii_of_nat 13) nv.2) /\
            (free_of ":"%char nv.1 /\ free_of ":"%char nv.2)) lines ->
  XMLHttpRequest.getAllResponseHeaders xhr = Normal (header_block lines) ->
  exists headers,
    _getXHRResponseHeaders xhr = Normal headers /\
    headers = match lines with
              | [] => ∅
              | _ :: _ => <[EmptyString := None]> (assign_all lines ∅)
              end /\
    (forall before name value after,
       lines = (before ++ (name, value) :: after)%list ->
       name ∉ after.*1 ->
       name <> "__proto__" -> name <> EmptyString ->
       read headers name = ReadString value) /\
    (lines <> [] -> read headers EmptyString = ReadUndefined) /\
    read headers "__proto__" = ReadInherited.
Proof.
  intros Hfree Hblock. unfold _getXHRResponseHeaders. rewrite Hblock.
  destruct lines as [|line lines].
  { exists ∅. split; [done|]. split; [done|]. split; [|done].
    intros before name value after Hlines. by destruct before. }
  assert (Htruthy : truthy (header_block (line :: lines)) = true).
  { unfold header_block. cbn [map app]. rewrite join_cons_ne by (by destruct lines).
    unfold header_line. rewrite !truthy_app. simpl. by rewrite !orb_true_r. }
  rewrite Htruthy. simpl negb. cbv iota.
  exists (<[EmptyString := None]> (assign_all (line :: lines) ∅)).
  split; [|split; [done|split; [|split]]].
  - f_equal. unfold header_block.
    rewrite (split_join (ascii_of_nat 13) (String (ascii_of_nat 10) EmptyString)).
    + rewrite fold_left_app. rewrite parse_lines_fold.
      * done.
      * eapply Forall_impl; [exact Hfree|]. by intros nv [_ H].
    + by destruct (map header_line (line :: lines)).
    + apply Forall_app. split; [|by repeat constructor].
      apply Forall_fmap. eapply Forall_impl; [exact Hfree|].
      intros [n v] [[Hn Hv] _]. simpl in *. unfold header_line. simpl.
      apply free_of_app. split; [done|]. by apply free_of_app.
  - intros before name value after -> Hnot Hproto Hempty. apply read_own.
    rewrite lookup_insert_ne by done. by apply assign_all_last.
  - intros _. unfold read. by rewrite lookup_insert_eq.
  - apply read_proto. rewrite lookup_insert_ne by done. by rewrite assign_all_proto.
Qed.

(** X7, witness. *)
Lemma getXHRResponseHeaders_block_witness :
  exists headers,
    _getXHRResponseHeaders
      (xhr_response 500 "https://api.example.com/users" (fun _ => Normal None)
         (Normal (header_block [("content-length", "1234"); ("x-trace", "7")]))) =
    Normal headers /\
    read headers "content-length" = ReadString "1234" /\
    read headers EmptyString = ReadUndefined.
Proof.
  destruct (getXHRResponseHeaders_block
              (xhr_response 500 "https://api.example.com/users" (fun _ => Normal None)
                 (Normal (header_block [("content-length", "1234"); ("x-trace", "7")])))
              [("content-length", "1234"); ("x-trace", "7")]
              ltac:(repeat constructor) eq_refl)
    as (headers & Hrun & _ & Hread & Hempty & _).
  exists headers. split; [exact Hrun|]. split.
  - apply (Hread [] "content-length" "1234" [("x-trace", "7")] eq_refl).
    + simpl. intros Hin. apply list_elem_of_singleton in Hin. discriminate.
    + discriminate.
    + discriminate.
  - apply Hempty. discriminate.
Defined.

(** Without a response ([getAllResponseHeaders] returns the empty string)
    the object is empty; when the getter throws, so does
    [_getXHRResponseHeaders]. *)
Lemma getXHRResponseHeaders_edges (xhr : XMLHttpRequest.t) (e : Exn) :
  (XMLHttpRequest.getAllResponseHeaders xhr = Normal EmptyString ->
   _getXHRResponseHeaders xhr = Normal ∅) /\
  (XMLHttpRequest.getAllResponseHeaders xhr = Throw e ->
   _getXHRResponseHeaders xhr = Throw e).
Proof. unfold _getXHRResponseHeaders. split; by intros ->. Qed.

End FormatFacts.

Section ConfigurationFacts.
Import Httpclient.

(** X1. The constructor's defaults: a key that the options do not mention keeps
    its default, so that a status is a failure exactly from 500 to 599 and
    every URL is a target. *)
Theorem constructor_defaults (options : option PartialOptions) (hub : option Hub)
    (status : Z) (url : string) :
  let self := {| _options := _options (constructor options); _getCurrentHub := hub |} in
  ((forall o, options = Some o -> given_failedRequestStatusCodes o = None) ->
   (_isInGivenStatusRanges self status = true <-> (500 <= status <= 599)%Z)) /\
  ((forall o, options = Some o -> given_failedRequestTargets o = None) ->
   _isInGivenRequestTargets self url = true).
Proof.
  unfold _isInGivenStatusRanges, _isInGivenRequestTargets, constructor, spread. simpl.
  split; intros Hmissing.
  - destruct options as [o|]; [rewrite (Hmissing o eq_refl)|]; simpl; lia.
  - destruct options as [o|]; [rewrite (Hmissing o eq_refl)|]; done.
Qed.

(** X1, witness. *)
Lemma constructor_defaults_witness :
  _isInGivenStatusRanges
    {| _options :=
         _options (constructor (Some {| given_failedRequestStatusCodes := None;
                                        given_failedRequestTargets := Some (Some []) |}));
       _getCurrentHub := None |} 503 = true.
Proof.
  apply (proj1 (constructor_defaults
                  (Some {| given_failedRequestStatusCodes := None;
                           given_failedRequestTargets := Some (Some []) |})
                  None 503 "")).
  - intros o [= <-]. reflexivity.
  - lia.
Defined.

(** X2. An option given as [undefined] or as the empty list switches the
    integration off: both handlers return at once, for every response and
    every hub, which is not called. *)
Theorem empty_option_disables debug new_Request (options : PartialOptions) (hub : Hub)
    xhr method headers info response init w :
  given_failedRequestStatusCodes options = Some None \/
  given_failedRequestStatusCodes options = Some (Some []) \/
  given_failedRequestTargets options = Some None \/
  given_failedRequestTargets options = Some (Some []) ->
  let self := {| _options := _options (constructor (Some options));
                 _getCurrentHub := Some hub |} in
  _xhrResponseHandler debug self xhr method headers w = (Normal tt, w) /\
  _fetchResponseHandler new_Request self info response init w = (Normal tt, w).
Proof.
  intros Hgiven self.
  assert (Hshould : forall status url,
            _shouldCaptureResponse self status url w = (Normal false, w)).
  { intros status url. unfold _shouldCaptureResponse, _isInGivenStatusRanges,
      _isInGivenRequestTargets. simpl.
    destruct Hgiven as [-> | [-> | [-> | ->]]]; simpl; try done.
    - by destruct (default _ _) as [ranges|]; [destruct (existsb _ ranges)|].
    - by destruct (default _ _) as [ranges|]; [destruct (existsb _ ranges)|]. }
  unfold _xhrResponseHandler, _fetchResponseHandler. simpl.
  unfold mbind, M_bind. by rewrite !Hshould.
Qed.

(** X2, witness. *)
Lemma empty_option_disables_witness :
  _xhrResponseHandler true
    {| _options :=
         _options (constructor (Some {| given_failedRequestStatusCodes := None;
                                        given_failedRequestTargets := Some None |}));
       _getCurrentHub := Some (recording_hub None true) |}
    xhr_api_500 "GET" ∅ empty_world = (Normal tt, empty_world).
Proof.
  apply (empty_option_disables true request_api
           {| given_failedRequestStatusCodes := None; given_failedRequestTargets := Some None |}
           (recording_hub None true) xhr_api_500 "GET" ∅ VUndefined response_api_500
           VUndefined empty_world).
  right. right. left. reflexivity.
Defined.

Lemma includes_empty (s : string) : includes s EmptyString = true.
Proof. by destruct s. Qed.

(** X3. Entries at the bounds: a range whose end is below its begin matches no
    status and can be dropped from the list, a range [[s, s]] stands for the
    single code [s], and the empty string as a target matches every URL. *)
Theorem degenerate_entries (hub : option Hub) (targets : option (list HttpRequestTarget))
    (codes : option (list HttpStatusCodeRange))
    (before after : list HttpStatusCodeRange) (begin_ end_ status : Z) (url : string) :
  let with_codes ranges :=
    {| _options := {| failedRequestStatusCodes := Some ranges;
                      failedRequestTargets := targets |};
       _getCurrentHub := hub |} in
  ((end_ < begin_)%Z ->
   _isInGivenStatusRanges (with_codes (before ++ StatusRange begin_ end_ :: after)%list) status =
   _isInGivenStatusRanges (with_codes (before ++ after)%list) status) /\
  _isInGivenStatusRanges (with_codes (before ++ StatusRange begin_ begin_ :: after)%list) status =
  _isInGivenStatusRanges (with_codes (before ++ StatusCode begin_ :: after)%list) status /\
  (forall given,
     In (TargetString EmptyString) given ->
     _isInGivenRequestTargets
       {| _options := {| failedRequestStatusCodes := codes;
                         failedRequestTargets := Some given |};
          _getCurrentHub := hub |} url = true).
Proof.
  unfold _isInGivenStatusRanges, _isInGivenRequestTargets. simpl.
  split; [|split].
  - intros Hlt. rewrite !existsb_app. simpl.
    replace ((status >=? begin_) && (status <=? end_))%Z with false; [done|].
    symmetry. apply andb_false_iff. lia.
  - rewrite !existsb_app. simpl.
    replace ((status >=? begin_) && (status <=? begin_))%Z with (begin_ =? status)%Z; [done|].
    destruct (Z.eqb_spec begin_ status) as [->|Hne].
    + symmetry. apply andb_true_iff. lia.
    + symmetry. apply andb_false_iff. lia.
  - intros given Hin. apply existsb_exists. exists (TargetString EmptyString).
    split; [done | apply includes_empty].
Qed.

(** X3, witness. *)
Lemma degenerate_entries_witness :
  _isInGivenStatusRanges
    {| _options := {| failedRequestStatusCodes := Some [StatusRange 599 500; StatusCode 404];
                      failedRequestTargets := None |};
       _getCurrentHub := None |} 503 =
  _isInGivenStatusRanges
    {| _options := {| failedRequestStatusCodes := Some [StatusCode 404];
                      failedRequestTargets := None |};
       _getCurrentHub := None |} 503.
Proof.
  apply (proj1 (degenerate_entries None None None [] [StatusCode 404] 599 500 503 "")).
  lia.
Defined.

End ConfigurationFacts.

Section HandlerFacts.
Import Httpclient Formats.

Lemma xhr_cookies_guarded_spec debug xhr w :
  exists entries cookies,
    try_catch (xhr_response_cookies xhr)
      (fun _ =>
         debug_log debug "log" ["Could not extract cookies from response headers"];;
         mret None) w =
    (Normal cookies, logged entries w) /\
    (debug = false -> entries = []) /\
    (forall e,
       XMLHttpRequest.getResponseHeader xhr "Set-Cookie" = Throw e -> cookies = None) /\
    (forall s,
       XMLHttpRequest.getResponseHeader xhr "Set-Cookie" = Normal (Some s) ->
       s <> EmptyString -> cookies = Some (_parseCookieString s)) /\
    (forall s,
       truthy_opt s = false ->
       XMLHttpRequest.getResponseHeader xhr "Set-Cookie" = Normal s ->
       forall e, XMLHttpRequest.getResponseHeader xhr "set-cookie" = Throw e ->
       cookies = None).
Proof.
  unfold try_catch, xhr_response_cookies.
  unfold mbind, M_bind, mret, M_ret, lift. simpl.
  destruct (XMLHttpRequest.getResponseHeader xhr "Set-Cookie") as [upper|e1]; simpl.
  - destruct (truthy_opt upper) eqn:Hup; simpl.
    + destruct upper as [s|]; [|done]. simpl in Hup. rewrite Hup.
      eexists [], _. rewrite logged_nil. split; [done|]. split; [done|].
      split; [done|]. split; [by intros ? [= ->]|].
      intros s' Hs' [= <-]. simpl in Hs'. congruence.
    + destruct (XMLHttpRequest.getResponseHeader xhr "set-cookie") as [[s|]|e2]; simpl.
      * destruct (truthy s); eexists [], _; rewrite logged_nil;
          (split; [done|]); (split; [done|]); (split; [done|]);
          (split; [intros ? [= ->] ?; by destruct s0 | done]).
      * eexists [], _. rewrite logged_nil.
        split; [done|]. split; [done|]. split; [done|].
        split; [intros ? [= ->] ?; by destruct s | done].
      * rewrite debug_log_run. eexists _, _. split; [done|].
        split; [by intros ->|]. split; [done|].
        split; [intros ? [= ->] ?; by destruct s | done].
  - rewrite debug_log_run. eexists _, _. split; [done|].
    split; [by intros ->|]. by repeat split.
Qed.

Lemma xhr_headers_guarded_spec debug xhr w :
  exists entries,
    try_catch (h ← lift (_getXHRResponseHeaders xhr); mret (Some h))
      (fun _ =>
         debug_log debug "log" ["Could not extract headers from response"];;
         mret None) w =
    (Normal (match _getXHRResponseHeaders xhr with
             | Normal h => Some h
             | Throw _ => None
             end), logged entries w) /\
    (debug = false -> entries = []).
Proof.
  unfold try_catch. unfold mbind, M_bind, mret, M_ret, lift. simpl.
  destruct (_getXHRResponseHeaders xhr) as [h|e]; simpl.
  - exists []. by rewrite logged_nil.
  - rewrite debug_log_run. eexists. split; [done|]. by intros ->.
Qed.

(** The XHR handler when the response passes the filters and does not go to
    Sentry: the event it captures, field by field. *)
Lemma xhrResponseHandler_event debug opts client pii xhr method headers w :
  let self := installed opts client pii in
  let status := XMLHttpRequest.status xhr in
  let url := XMLHttpRequest.responseURL xhr in
  _isInGivenStatusRanges self status = true ->
  _isInGivenRequestTargets self url = true ->
  points_to_sentry client url = false ->
  exists entries cookies,
    _xhrResponseHandler debug self xhr method headers w =
    (Normal tt,
     called [CaptureEvent (_createEvent {|
               Data.url := url; Data.method := method; Data.status := status;
               Data.requestHeaders := if pii then Some headers else None;
               Data.responseHeaders :=
                 if pii then
                   match _getXHRResponseHeaders xhr with
                   | Normal h => Some h
                   | Throw _ => None
                   end
                 else None;
               Data.requestCookies := None;
               Data.responseCookies := cookies |})]
       (logged entries (called [GetClient; ShouldSendDefaultPii] w))) /\
    (debug = false -> entries = []) /\
    (pii = false -> entries = [] /\ cookies = None) /\
    (forall e,
       XMLHttpRequest.getResponseHeader xhr "Set-Cookie" = Throw e -> cookies = None) /\
    (forall s,
       pii = true ->
       XMLHttpRequest.getResponseHeader xhr "Set-Cookie" = Normal (Some s) ->
       s <> EmptyString -> cookies = Some (_parseCookieString s)).
Proof.
  intros self status url Hstatus Htarget Hsentry. unfold _xhrResponseHandler. simpl.
  unfold mbind at 1, M_bind at 1.
  pose proof (shouldCaptureResponse_run opts client pii status url w) as Hrun.
  simpl in Hrun. fold self status url in Hrun |- *. rewrite Hrun. clear Hrun.
  rewrite Hstatus, Htarget, Hsentry. simpl.
  destruct pii.
  - unfold mbind at 1, M_bind at 1. simpl. unfold mbind at 1, M_bind at 1.
    unfold mbind at 1, M_bind at 1.
    destruct (xhr_cookies_guarded_spec debug xhr
                (called [ShouldSendDefaultPii] (called [GetClient] w)))
      as (entries1 & cookies & -> & Hdebug1 & Hthrow & Hsome & _).
    unfold mbind at 1, M_bind at 1.
    destruct (xhr_headers_guarded_spec debug xhr
                (logged entries1 (called [ShouldSendDefaultPii] (called [GetClient] w))))
      as (entries2 & -> & Hdebug2).
    unfold mbind, M_bind, mret, M_ret, record_call. simpl.
    exists (entries1 ++ entries2)%list, cookies.
    split; [by rewrite logged_logged, called_called|].
    split; [intros Hd; by rewrite Hdebug1, Hdebug2|].
    split; [done|]. split; [done|]. intros s _. apply Hsome.
  - unfold mbind, M_bind, mret, M_ret, record_call. simpl.
    exists [], None. rewrite logged_nil.
    split; [unfold called; simpl; by rewrite <- !app_assoc|]. by repeat split.
Qed.

(** X8. An XHR event with PII on: the request headers are those recorded for
    the instance, request cookies are never set, and a header getter that
    throws costs only its own field: with a throwing
    [getAllResponseHeaders] the event is captured without response headers
    and body size, with a throwing [getResponseHeader] without response
    cookies. Nothing is logged outside debug builds. *)
Theorem xhr_event_with_pii debug opts client xhr method headers w :
  let self := installed opts client true in
  _isInGivenStatusRanges self (XMLHttpRequest.status xhr) = true ->
  _isInGivenRequestTargets self (XMLHttpRequest.responseURL xhr) = true ->
  points_to_sentry client (XMLHttpRequest.responseURL xhr) = false ->
  exists event entries,
    _xhrResponseHandler debug self xhr method headers w =
    (Normal tt,
     called [CaptureEvent event]
       (logged entries (called [GetClient; ShouldSendDefaultPii] w))) /\
    (debug = false -> entries = []) /\
    request_url (request event) = XMLHttpRequest.responseURL xhr /\
    request_method (request event) = method /\
    status_code (contexts_response event) = XMLHttpRequest.status xhr /\
    request_headers (request event) = Some headers /\
    request_cookies (request event) = None /\
    (forall h,
       _getXHRResponseHeaders xhr = Normal h ->
       response_headers (contexts_response event) = Some h) /\
    (forall e,
       XMLHttpRequest.getAllResponseHeaders xhr = Throw e ->
       response_headers (contexts_response event) = None /\
       body_size (contexts_response event) = None) /\
    (forall e,
       XMLHttpRequest.getResponseHeader xhr "Set-Cookie" = Throw e ->
       response_cookies (contexts_response event) = None) /\
    (forall s,
       XMLHttpRequest.getResponseHeader xhr "Set-Cookie" = Normal (Some s) ->
       s <> EmptyString ->
       response_cookies (contexts_response event) = Some (_parseCookieString s)).
Proof.
  intros self Hstatus Htarget Hsentry.
  pose proof (xhrResponseHandler_event debug opts client true xhr method headers w) as H.
  cbv zeta in H.
  destruct (H Hstatus Htarget Hsentry) as (entries & cookies & Hrun & Hdebug & _ & Hthrow & Hsome).
  eexists _, entries. split; [exact Hrun|]. split; [done|].
  unfold _createEvent, addExceptionMechanism. simpl.
  do 5 (split; [reflexivity|]).
  split; [by intros h ->|]. split.
  - intros e He. unfold _getXHRResponseHeaders. by rewrite He.
  - split; [done|]. intros s Hs Hne. by apply Hsome.
Qed.

(** X8, witness. *)
Lemma xhr_event_with_pii_witness :
  exists event entries,
    _xhrResponseHandler true (installed default_options None true)
      (xhr_response 502 "https://api.example.com/users"
         (fun _ => Throw "SecurityError") (Throw "InvalidStateError"))
      "GET" ∅ empty_world =
    (Normal tt,
     called [CaptureEvent event]
       (logged entries (called [GetClient; ShouldSendDefaultPii] empty_world))) /\
    response_headers (contexts_response event) = None /\
    response_cookies (contexts_response event) = None.
Proof.
  destruct (xhr_event_with_pii true default_options None
              (xhr_response 502 "https://api.example.com/users"
                 (fun _ => Throw "SecurityError") (Throw "InvalidStateError"))
              "GET" ∅ empty_world eq_refl eq_refl eq_refl)
    as (event & entries & Hrun & _ & _ & _ & _ & _ & _ & _ & Hall & Hget & _).
  exists event, entries. split; [exact Hrun|]. split.
  - apply (Hall "InvalidStateError" eq_refl).
  - apply (Hget "SecurityError" eq_refl).
Defined.

Lemma headers_and_cookies_spec cookieHeader lower (headers : list (string * string)) :
  toLowerCase cookieHeader = lower ->
  lower <> "__proto__" ->
  cookieHeader ∉ headers.*1 ->
  (headers_and_cookies cookieHeader headers).1 = _extractFetchHeaders headers /\
  (lower ∉ headers.*1 -> (headers_and_cookies cookieHeader headers).2 = None) /\
  (forall before value after,
     headers = (before ++ (lower, value) :: after)%list ->
     lower ∉ after.*1 -> value <> EmptyString ->
     (headers_and_cookies cookieHeader headers).2 = Some (_parseCookieString value)).
Proof.
  intros Hlower Hproto Hupper. unfold headers_and_cookies. simpl. split; [done|].
  rewrite Hlower. unfold get.
  change (_extractFetchHeaders headers) with (assign_all headers ∅).
  rewrite (assign_all_other headers ∅ cookieHeader) by done.
  rewrite lookup_empty. simpl. split.
  - intros Hnot. by rewrite assign_all_other.
  - intros before value after -> Hnot Hvalue. rewrite assign_all_last by done.
    by destruct value.
Qed.

(** X9. A fetch event with PII on. The URL and method are those of the rebuilt
    request (the filters looked at the response's URL), the status is the
    response's; the headers of both are attached, and since the Fetch API
    lists header names in lower case, the body size is [parseInt] of the
    response's [content-length] and the response cookies are parsed from its
    [set-cookie]. *)
Theorem fetch_event_with_pii new_Request opts client info response init rebuilt w :
  let self := installed opts client true in
  new_Request info init = Normal rebuilt ->
  _isInGivenStatusRanges self (Response.status response) = true ->
  _isInGivenRequestTargets self (Response.url response) = true ->
  points_to_sentry client (Response.url response) = false ->
  exists event,
    _fetchResponseHandler new_Request self info response init w =
    (Normal tt, called [GetClient; ShouldSendDefaultPii; CaptureEvent event] w) /\
    request_url (request event) = Request.url rebuilt /\
    request_method (request event) = Request.method rebuilt /\
    status_code (contexts_response event) = Response.status response /\
    request_headers (request event) = Some (_extractFetchHeaders (Request.headers rebuilt)) /\
    response_headers (contexts_response event) =
      Some (_extractFetchHeaders (Response.headers response)) /\
    (forall before value after,
       Response.headers response = (before ++ ("content-length", value) :: after)%list ->
       "content-length" ∉ after.*1 ->
       "Content-Length" ∉ (Response.headers response).*1 ->
       value <> EmptyString ->
       body_size (contexts_response event) = Some (parseInt value)) /\
    (forall before value after,
       Response.headers response = (before ++ ("set-cookie", value) :: after)%list ->
       "set-cookie" ∉ after.*1 ->
       "Set-Cookie" ∉ (Response.headers response).*1 ->
       value <> EmptyString ->
       response_cookies (contexts_response event) = Some (_parseCookieString value)).
Proof.
  intros self Hrequest Hstatus Htarget Hsentry. unfold self.
  rewrite fetchResponseHandler_run. fold self.
  rewrite Hstatus, Htarget, Hsentry, Hrequest. simpl.
  eexists. split; [reflexivity|].
  unfold _createEvent, addExceptionMechanism. simpl.
  do 5 (split; [reflexivity|]). split.
  - intros before value after Hhs Hafter Hupper Hvalue.
    unfold _getResponseSizeFromHeaders, get.
    change (_extractFetchHeaders (Response.headers response))
      with (assign_all (Response.headers response) ∅).
    rewrite (assign_all_other _ ∅ "Content-Length") by done.
    rewrite lookup_empty. simpl. rewrite Hhs, assign_all_last by done.
    by destruct value.
  - intros before value after Hhs Hafter Hupper Hvalue.
    by apply (proj2 (proj2 (headers_and_cookies_spec "Set-Cookie" "set-cookie"
                              (Response.headers response) eq_refl
                              ltac:(discriminate) Hupper))
                before value after).
Qed.

(** X9, witness. *)
Lemma fetch_event_with_pii_witness :
  exists event,
    _fetchResponseHandler request_api (installed default_options None true) VUndefined
      response_api_500 VUndefined empty_world =
    (Normal tt, called [GetClient; ShouldSendDefaultPii; CaptureEvent event] empty_world) /\
    body_size (contexts_response event) = Some (parseInt "1234").
Proof.
  destruct (fetch_event_with_pii request_api default_options None VUndefined
              response_api_500 VUndefined
              (fetch_request "https://api.example.com/users" "GET" [("cookie", "sid=abc")])
              empty_world eq_refl eq_refl eq_refl eq_refl)
    as (event & Hrun & _ & _ & _ & _ & _ & Hsize & _).
  exists event. split; [exact Hrun|].
  apply (Hsize [] "1234" [("set-cookie", "sid=abc")] eq_refl).
  - simpl. intros Hin. apply list_elem_of_singleton in Hin. discriminate.
  - simpl. intros Hin. apply elem_of_cons in Hin as [Heq|Hin]; [discriminate|].
    apply list_elem_of_singleton in Hin. discriminate.
  - discriminate.
Defined.

(** X10. The wrapped fetch when the response cannot be reported or there is no
    response. If the [Request] constructor throws on the call's arguments
    while a failed response is being reported, nothing is captured: the hub
    was asked for its client only, the derived promise is rejected and
    dropped, and the application still gets the original promise. When the
    original promise is rejected or never settles, or the original fetch
    throws, the response handler does not run and no hub, whatever its
    implementation, is called. *)
Theorem wrapped_fetch_without_event new_Request (self : HttpClient) originalFetch args w w1 :
  (forall opts client pii response e,
     self = installed opts client pii ->
     originalFetch args w = (Normal (Fulfilled response), w1) ->
     new_Request (nth 0 args VUndefined) (nth 1 args VUndefined) = Throw e ->
     _isInGivenStatusRanges self (Response.status response) = true ->
     _isInGivenRequestTargets self (Response.url response) = true ->
     points_to_sentry client (Response.url response) = false ->
     wrapped_fetch new_Request self originalFetch args w =
     (Normal (Fulfilled response),
      {| hub_calls := hub_calls w1 ++ [GetClient]; logs := logs w1; cells := cells w1;
         native := native w1; unhandled := unhandled w1 ++ [e] |})) /\
  (forall e,
     originalFetch args w = (Normal (Rejected e), w1) ->
     wrapped_fetch new_Request self originalFetch args w =
     (Normal (Rejected e),
      {| hub_calls := hub_calls w1; logs := logs w1; cells := cells w1;
         native := native w1; unhandled := unhandled w1 ++ [e] |})) /\
  (originalFetch args w = (Normal Pending, w1) ->
   wrapped_fetch new_Request self originalFetch args w = (Normal Pending, w1)) /\
  (forall e,
     originalFetch args w = (Throw e, w1) ->
     wrapped_fetch new_Request self originalFetch args w = (Throw e, w1)).
Proof.
  split; [|split; [|split]].
  - intros opts client pii response e -> Horiginal Hthrow Hstatus Htarget Hsentry.
    unfold wrapped_fetch. unfold mbind at 1, M_bind at 1. rewrite Horiginal.
    unfold mbind at 1, M_bind at 1. unfold promise_then.
    unfold mbind at 1, M_bind at 1.
    rewrite fetchResponseHandler_run, Hstatus, Htarget, Hsentry, Hthrow. simpl.
    reflexivity.
  - intros e Horiginal. unfold wrapped_fetch.
    unfold mbind at 1, M_bind at 1. by rewrite Horiginal.
  - intros Horiginal. unfold wrapped_fetch.
    unfold mbind at 1, M_bind at 1. by rewrite Horiginal.
  - intros e Horiginal. unfold wrapped_fetch.
    unfold mbind at 1, M_bind at 1. by rewrite Horiginal.
Qed.

(** X10, witness. *)
Lemma wrapped_fetch_without_event_witness :
  wrapped_fetch request_api (installed default_options None true)
    (native_fetch (Rejected "TypeError: Failed to fetch")) [VStr "/users"] empty_world =
  (Normal (Rejected "TypeError: Failed to fetch"),
   {| hub_calls := []; logs := []; cells := [];
      native := [NativeFetch [VStr "/users"]];
      unhandled := ["TypeError: Failed to fetch"] |}).
Proof.
  apply (proj1 (proj2 (wrapped_fetch_without_event request_api
                         (installed default_options None true)
                         (native_fetch (Rejected "TypeError: Failed to fetch"))
                         [VStr "/users"] empty_world
                         {| hub_calls := []; logs := []; cells := [];
                            native := [NativeFetch [VStr "/users"]]; unhandled := [] |}))
           "TypeError: Failed to fetch" eq_refl).
Defined.

End HandlerFacts.

Section ProtocolFacts.
Import Httpclient.

(** X11. What a handler asks of the hub for one response, in order: nothing when
    a filter fails; its client only when the URL points to Sentry (or, on
    the fetch path, when the request cannot be rebuilt); otherwise its
    client, then whether PII may be sent, then one call of [captureEvent].
    It never captures twice and never asks about PII without capturing. *)
Theorem hub_call_protocol
    debug new_Request opts client pii xhr method headers info response init w :
  let self := installed opts client pii in
  (exists event,
     hub_calls (_xhrResponseHandler debug self xhr method headers w).2 =
     (hub_calls w ++
      if _isInGivenStatusRanges self (XMLHttpRequest.status xhr)
         && _isInGivenRequestTargets self (XMLHttpRequest.responseURL xhr)
      then if points_to_sentry client (XMLHttpRequest.responseURL xhr) then [GetClient]
           else [GetClient; ShouldSendDefaultPii; CaptureEvent event]
      else [])%list) /\
  (exists event,
     hub_calls (_fetchResponseHandler new_Request self info response init w).2 =
     (hub_calls w ++
      if _isInGivenStatusRanges self (Response.status response)
         && _isInGivenRequestTargets self (Response.url response)
      then if points_to_sentry client (Response.url response) then [GetClient]
           else match new_Request info init with
                | Throw _ => [GetClient]
                | Normal _ => [GetClient; ShouldSendDefaultPii; CaptureEvent event]
                end
      else [])%list).
Proof.
  intros self. split.
  - pose proof (xhrResponseHandler_run debug opts client pii xhr method headers w) as H.
    cbv zeta in H. destruct H as (entries & event & Hrun & _).
    exists event. unfold self. rewrite Hrun. fold self. simpl.
    destruct (_ && _); [|by rewrite app_nil_r].
    destruct (points_to_sentry _ _); [done|]. simpl. by rewrite <- app_assoc.
  - unfold self. rewrite fetchResponseHandler_run. fold self.
    destruct (_ && _); [|exists (_createEvent {|
        Data.url := ""; Data.method := ""; Data.status := 0;
        Data.requestHeaders := None; Data.responseHeaders := None;
        Data.requestCookies := None; Data.responseCookies := None |});
        by rewrite app_nil_r].
    destruct (points_to_sentry _ _);
      [by exists (_createEvent {|
        Data.url := ""; Data.method := ""; Data.status := 0;
        Data.requestHeaders := None; Data.responseHeaders := None;
        Data.requestCookies := None; Data.responseCookies := None |})|].
    destruct (new_Request info init) as [rebuilt|e].
    + by eexists.
    + by exists (_createEvent {|
        Data.url := ""; Data.method := ""; Data.status := 0;
        Data.requestHeaders := None; Data.responseHeaders := None;
        Data.requestCookies := None; Data.responseCookies := None |}).
Qed.

End ProtocolFacts.

Section SessionFacts.
Import Httpclient Formats Sessions.

Lemma wrapped_open_native debug self this openArgs w :
  wrapped_open debug self native_open this openArgs w =
  (Normal (VUndefined,
           {| setRequestHeader :=
                wrapped_setRequestHeader (List.length (cells w)) (setRequestHeader this);
              onloadend :=
                Some (wrapped_onloadend debug self (open_method openArgs)
                        (List.length (cells w)) (onloadend this)) |}),
   {| hub_calls := hub_calls w; logs := logs w; cells := cells w ++ [∅];
      native := native w ++ [NativeOpen (open_method openArgs) (open_rest openArgs)];
      unhandled := unhandled w |}).
Proof. reflexivity. Qed.

(** The wrapped [onloadend] on a response that is to be reported: one event,
    with the method given to [open] and, with PII on, the request headers
    recorded in the instance's cell; then the original handler. *)
Lemma wrapped_onloadend_run debug opts client pii method cell original xhr args w :
  let self := installed opts client pii in
  _isInGivenStatusRanges self (XMLHttpRequest.status xhr) = true ->
  _isInGivenRequestTargets self (XMLHttpRequest.responseURL xhr) = true ->
  points_to_sentry client (XMLHttpRequest.responseURL xhr) = false ->
  exists event entries,
    wrapped_onloadend debug self method cell original xhr args w =
    match original with
    | Some original =>
        original xhr args
          (called [CaptureEvent event]
             (logged entries (called [GetClient; ShouldSendDefaultPii] w)))
    | None =>
        (Normal VUndefined,
         called [CaptureEvent event]
           (logged entries (called [GetClient; ShouldSendDefaultPii] w)))
    end /\
    request_method (request event) = method /\
    request_headers (request event) =
      (if pii then Some (default ∅ (cells w !! cell)) else None).
Proof.
  intros self Hstatus Htarget Hsentry.
  pose proof (xhrResponseHandler_event debug opts client pii xhr method
                (default ∅ (cells w !! cell)) w) as H.
  cbv zeta in H.
  destruct (H Hstatus Htarget Hsentry) as (entries & cookies & Hrun & _).
  eexists _, entries. split.
  - unfold wrapped_onloadend. unfold mbind at 1, M_bind at 1. unfold try_catch.
    unfold mbind at 1, M_bind at 1. unfold read_headers at 1. cbv beta iota.
    fold self in Hrun |- *. rewrite Hrun. by destruct original.
  - unfold _createEvent, addExceptionMechanism. simpl. by destruct pii.
Qed.

(** X12. Every [open] on an instance wraps its [onloadend] once more, around the
    wrapper of the previous [open]: an instance that is opened twice reports
    its failed response twice, first with the method of the second [open],
    then with the method of the first. The native [open] still sees each
    call once. *)
Theorem reopened_reports_twice debug opts client pii first second xhr args w :
  let self := installed opts client pii in
  _isInGivenStatusRanges self (XMLHttpRequest.status xhr) = true ->
  _isInGivenRequestTargets self (XMLHttpRequest.responseURL xhr) = true ->
  points_to_sentry client (XMLHttpRequest.responseURL xhr) = false ->
  exists later earlier w',
    xhr_reopened debug self first second xhr args w = (Normal VUndefined, w') /\
    captured_events (hub_calls w') =
      (captured_events (hub_calls w) ++ [later; earlier])%list /\
    request_method (request later) = open_method second /\
    request_method (request earlier) = open_method first /\
    native w' =
      (native w ++ [NativeOpen (open_method first) (open_rest first);
                    NativeOpen (open_method second) (open_rest second)])%list.
Proof.
  intros self Hstatus Htarget Hsentry. unfold xhr_reopened.
  unfold mbind at 1, M_bind at 1. rewrite wrapped_open_native. cbv beta iota.
  unfold mbind at 1, M_bind at 1. rewrite wrapped_open_native. cbv beta iota.
  unfold fire_loadend. cbn [snd onloadend cells hub_calls logs native unhandled].
  change (onloadend new_xhr) with (@None OnloadendFn).
  set (w2 := {| hub_calls := hub_calls w; logs := logs w;
                cells := (cells w ++ [∅]) ++ [∅];
                native := (native w ++ [NativeOpen (open_method first) (open_rest first)]) ++
                          [NativeOpen (open_method second) (open_rest second)];
                unhandled := unhandled w |}).
  pose proof (wrapped_onloadend_run debug opts client pii (open_method second)
                (List.length (cells w ++ [∅]))
                (Some (wrapped_onloadend debug self (open_method first)
                         (List.length (cells w)) None)) xhr args w2) as Hlater.
  cbv zeta in Hlater.
  destruct (Hlater Hstatus Htarget Hsentry) as (later & entries2 & Hrun2 & Hmethod2 & _).
  fold self in Hrun2. rewrite Hrun2. clear Hrun2 Hlater.
  pose proof (wrapped_onloadend_run debug opts client pii (open_method first)
                (List.length (cells w)) None xhr args
                (called [CaptureEvent later]
                   (logged entries2 (called [GetClient; ShouldSendDefaultPii] w2)))) as Hearlier.
  cbv zeta in Hearlier.
  destruct (Hearlier Hstatus Htarget Hsentry) as (earlier & entries1 & Hrun1 & Hmethod1 & _).
  fold self in Hrun1. rewrite Hrun1. clear Hrun1 Hearlier.
  eexists later, earlier, _. split; [reflexivity|].
  split; [|split; [done|split; [done|]]].
  - simpl. rewrite !captured_events_app. simpl. by rewrite !app_nil_r, <- app_assoc.
  - simpl. by rewrite <- app_assoc.
Qed.

(** X12, witness. *)
Lemma reopened_reports_twice_witness :
  exists later earlier w',
    xhr_reopened true (installed default_options None true)
      {| open_method := "GET"; open_rest := [VStr "/a"] |}
      {| open_method := "POST"; open_rest := [VStr "/b"] |}
      xhr_api_500 [] empty_world = (Normal VUndefined, w') /\
    captured_events (hub_calls w') =
      (captured_events (hub_calls empty_world) ++ [later; earlier])%list /\
    request_method (request later) = "POST" /\
    request_method (request earlier) = "GET".
Proof.
  destruct (reopened_reports_twice true default_options None true
              {| open_method := "GET"; open_rest := [VStr "/a"] |}
              {| open_method := "POST"; open_rest := [VStr "/b"] |}
              xhr_api_500 [] empty_world eq_refl eq_refl eq_refl)
    as (later & earlier & w' & Hrun & Hcaptured & Hlater & Hearlier & _).
  by exists later, earlier, w'.
Defined.

(** A sequence of wrapped [setRequestHeader] calls: the instance's cell
    receives the assignments in order, other cells stay as they are, and the
    native method sees every call. *)
Lemma set_request_headers_run (cell : nat) (pairs : list (string * string)) (w : World) :
  (cell < List.length (cells w))%nat ->
  set_request_headers (wrapped_setRequestHeader cell native_setRequestHeader) pairs w =
  (Normal tt,
   {| hub_calls := hub_calls w; logs := logs w;
      cells := <[cell := assign_all pairs (default ∅ (cells w !! cell))]> (cells w);
      native := native w ++ map (fun kv => NativeSetRequestHeader kv.1 kv.2 []) pairs;
      unhandled := unhandled w |}).
Proof.
  revert w. induction pairs as [|kv pairs IH]; intros w Hcell.
  - simpl. destruct (lookup_lt_is_Some_2 (cells w) cell Hcell) as [obj Hobj].
    rewrite Hobj. simpl. rewrite list_insert_id by done. rewrite app_nil_r.
    by destruct w.
  - cbn [set_request_headers]. unfold mbind at 1, M_bind at 1.
    unfold wrapped_setRequestHeader at 1. unfold mbind at 1, M_bind at 1.
    unfold write_header at 1. cbv beta iota.
    unfold native_setRequestHeader at 1. unfold mbind at 1, M_bind at 1.
    unfold record_native at 1. cbv beta iota. unfold mret at 1, M_ret at 1.
    cbv beta iota. cbn [header_name header_value header_rest cells hub_calls logs native
                        unhandled].
    rewrite IH by (cbn [cells]; by rewrite length_insert).
    cbn [cells hub_calls logs native unhandled].
    rewrite list_lookup_insert_eq by done. simpl default.
    rewrite list_insert_insert_eq. rewrite assign_all_step.
    cbn [map]. by rewrite <- app_assoc.
Qed.

(** X13. One request with PII on, from [open] to [loadend]: the request
    headers of the event are the object that the calls of
    [setRequestHeader] assigned to, in order, and the method is the one
    passed to [open]. A name other than ['__proto__'] reads as the value of
    its last call; a call with the name ['__proto__'] leaves no entry in the
    event, although the native method received it. The native [open] and
    [setRequestHeader] received every call unchanged. *)
Theorem lifecycle_request_headers debug opts client openArgs pairs xhr args w :
  let self := installed opts client true in
  _isInGivenStatusRanges self (XMLHttpRequest.status xhr) = true ->
  _isInGivenRequestTargets self (XMLHttpRequest.responseURL xhr) = true ->
  points_to_sentry client (XMLHttpRequest.responseURL xhr) = false ->
  exists event headers w',
    xhr_lifecycle debug self openArgs pairs xhr args w = (Normal VUndefined, w') /\
    captured_events (hub_calls w') = (captured_events (hub_calls w) ++ [event])%list /\
    request_headers (request event) = Some headers /\
    headers = Formats.assign_all pairs ∅ /\
    (forall before name value after,
       pairs = (before ++ (name, value) :: after)%list ->
       name ∉ after.*1 ->
       name <> "__proto__" ->
       read headers name = ReadString value) /\
    (forall name,
       name ∉ pairs.*1 -> name ∉ object_prototype_names ->
       read headers name = ReadUndefined) /\
    read headers "__proto__" = ReadInherited /\
    request_method (request event) = open_method openArgs /\
    native w' =
      (native w ++ NativeOpen (open_method openArgs) (open_rest openArgs)
                   :: map (fun kv => NativeSetRequestHeader kv.1 kv.2 []) pairs)%list.
Proof.
  intros self Hstatus Htarget Hsentry. unfold xhr_lifecycle.
  unfold mbind at 1, M_bind at 1. rewrite wrapped_open_native. cbv beta iota.
  cbn [snd setRequestHeader onloadend].
  change (setRequestHeader new_xhr) with native_setRequestHeader.
  change (onloadend new_xhr) with (@None OnloadendFn).
  unfold mbind at 1, M_bind at 1.
  rewrite set_request_headers_run by (cbn [cells]; rewrite length_app; simpl; lia).
  cbv beta iota. cbn [cells hub_calls logs native unhandled].
  rewrite lookup_app_r by lia. rewrite Nat.sub_diag. simpl lookup. simpl default.
  unfold fire_loadend. cbn [onloadend].
  match goal with
  | |- context [wrapped_onloadend _ _ _ _ _ _ _ ?w0] => set (w3 := w0)
  end.
  pose proof (wrapped_onloadend_run debug opts client true (open_method openArgs)
                (List.length (cells w)) None xhr args w3) as Hrun.
  cbv zeta in Hrun.
  destruct (Hrun Hstatus Htarget Hsentry) as (event & entries & Hevent & Hmethod & Hheaders).
  fold self in Hevent. rewrite Hevent. clear Hevent Hrun.
  eexists event, (Formats.assign_all pairs ∅), _. split; [reflexivity|].
  split; [|split; [|split; [done|split; [|split; [|split; [|split; [done|]]]]]]].
  - simpl. rewrite !captured_events_app. simpl. by rewrite !app_nil_r.
  - rewrite Hheaders. unfold w3. cbn [cells].
    rewrite list_lookup_insert_eq by (rewrite length_app; simpl; lia). done.
  - intros before name value after -> Hnot Hproto. apply read_own. by apply assign_all_last.
  - intros name Hnot Hinherited. apply read_absent; [|done]. by rewrite assign_all_other.
  - apply read_proto. by rewrite assign_all_proto.
  - simpl. by rewrite <- app_assoc.
Qed.

(** X13, witness. *)
Lemma lifecycle_request_headers_witness :
  exists event headers w',
    xhr_lifecycle true (installed default_options None true)
      {| open_method := "POST"; open_rest := [VStr "/users"] |}
      [("X-Token", "a"); ("Accept", "text/plain"); ("X-Token", "b")]
      xhr_api_500 [] empty_world = (Normal VUndefined, w') /\
    request_headers (request event) = Some headers /\
    read headers "X-Token" = ReadString "b" /\
    captured_events (hub_calls w') = [event].
Proof.
  destruct (lifecycle_request_headers true default_options None
              {| open_method := "POST"; open_rest := [VStr "/users"] |}
              [("X-Token", "a"); ("Accept", "text/plain"); ("X-Token", "b")]
              xhr_api_500 [] empty_world eq_refl eq_refl eq_refl)
    as (event & headers & w' & Hrun & Hcaptured & Hheaders & _ & Hread & _).
  exists event, headers, w'. split; [exact Hrun|]. split; [exact Hheaders|].
  split; [|exact Hcaptured].
  apply (Hread [("X-Token", "a"); ("Accept", "text/plain")] "X-Token" "b" [] eq_refl).
  - simpl. apply not_elem_of_nil.
  - discriminate.
Defined.

End SessionFacts.

(** ** Exceptions of the response handlers, by path *)
Section ExceptionFacts.
Import Httpclient.

(** X18. What becomes of an exception of a response handler. On the XHR
    path the wrapped [onloadend] catches it: the guarded handler always
    completes normally, after a throw the world is the one the handler left
    plus, in debug builds, one warning, and the original [onloadend], if
    there is one, is then called with the same arguments and decides the
    result. On the fetch path nothing catches it: for a fulfilled response
    the wrapped fetch returns the original promise, and the world is the
    one the handler left, with the handler's exception, if it threw, added
    as an unhandled rejection. *)
Theorem handler_exceptions_by_path
    debug new_Request self method cell original xhr onloadendArgs originalFetch args w :
  let handler :=
    headers ← read_headers cell; _xhrResponseHandler debug self xhr method headers in
  (exists w',
     try_catch handler
       (fun e =>
          debug_log debug "warn"
            ["Error while extracting response event form XHR response"; e]) w =
     (Normal tt, w') /\
     (forall e w1,
        handler w = (Throw e, w1) ->
        w' = logged
               (if debug
                then [("warn", ["Error while extracting response event form XHR response"; e])]
                else []) w1) /\
     (forall w1, handler w = (Normal tt, w1) -> w' = w1) /\
     wrapped_onloadend debug self method cell original xhr onloadendArgs w =
     match original with
     | Some original => original xhr onloadendArgs w'
     | None => (Normal VUndefined, w')
     end) /\
  (forall response w1,
     originalFetch args w = (Normal (Fulfilled response), w1) ->
     wrapped_fetch new_Request self originalFetch args w =
     (Normal (Fulfilled response),
      match _fetchResponseHandler new_Request self (nth 0 args VUndefined) response
              (nth 1 args VUndefined) w1 with
      | (Normal _, w2) => w2
      | (Throw e, w2) => Fetching.unhandled_rejection e w2
      end)).
Proof.
  intros handler. split.
  - unfold wrapped_onloadend. fold handler. unfold mbind at 1, M_bind at 1.
    unfold try_catch. destruct (handler w) as [[[]|e] w1] eqn:Hhandler.
    + exists w1. split; [done|]. split; [congruence|]. split; [congruence|].
      by destruct original.
    + rewrite debug_log_run. eexists. split; [reflexivity|]. split; [|split].
      * intros e' w1' H. by simplify_eq.
      * intros w1' H. discriminate.
      * by destruct original.
  - intros response w1 Horiginal. unfold wrapped_fetch.
    unfold mbind at 1, M_bind at 1. rewrite Horiginal.
    unfold mbind at 1, M_bind at 1. unfold promise_then.
    unfold mbind at 1, M_bind at 1.
    destruct (_fetchResponseHandler new_Request self (nth 0 args VUndefined) response
                (nth 1 args VUndefined) w1) as [[[]|e] w2]; [by destruct w2|done].
Qed.

(** X18, witness: the hub's [captureEvent] throws while a failed response is
    reported, once on each path. *)
Lemma handler_exceptions_by_path_witness :
  (wrapped_onloadend true {| _options := default_options; _getCurrentHub := Some failing_hub |}
     "GET" 0 (Some native_onloadend) xhr_api_500 [VRef 1] empty_world).1 = Normal VUndefined /\
  wrapped_fetch request_api {| _options := default_options; _getCurrentHub := Some failing_hub |}
    (native_fetch (Fulfilled response_api_500)) [VStr "/users"] empty_world =
  (Normal (Fulfilled response_api_500),
   {| hub_calls := []; logs := []; cells := [];
      native := [NativeFetch [VStr "/users"]]; unhandled := ["capture failed"] |}).
Proof.
  destruct (handler_exceptions_by_path true request_api
              {| _options := default_options; _getCurrentHub := Some failing_hub |}
              "GET" 0%nat (Some native_onloadend) xhr_api_500 [VRef 1]
              (native_fetch (Fulfilled response_api_500)) [VStr "/users"] empty_world)
    as ((w' & _ & _ & _ & Hxhr) & Hfetch).
  split.
  - rewrite Hxhr. reflexivity.
  - rewrite (Hfetch response_api_500
               {| hub_calls := []; logs := []; cells := [];
                  native := [NativeFetch [VStr "/users"]]; unhandled := [] |} eq_refl).
    reflexivity.
Defined.

End ExceptionFacts.

Section BodySizeFacts.
Import Httpclient.

(** X14. A [Content-Length] whose first character is an ASCII character
    other than white space, a sign or a digit is not rejected: the body
    size is then [NaN], not [undefined]. *)
Theorem body_size_not_a_number (headers : JsObj) (c : ascii) (rest : string) :
  get headers "Content-Length" = Some (String c rest) ->
  (nat_of_ascii c < 128)%nat ->
  is_white_space c = false ->
  digit_of c = None ->
  c <> "-"%char -> c <> "+"%char ->
  _getResponseSizeFromHeaders (Some headers) = Some NaN.
Proof.
  intros Hget _ Hspace Hdigit Hminus Hplus.
  unfold _getResponseSizeFromHeaders. rewrite Hget. simpl. f_equal.
  unfold parseInt. simpl. rewrite Hspace.
  destruct c as [[] [] [] [] [] [] [] []]; simpl; try (by rewrite Hdigit); done.
Qed.

(** X14, witness. *)
Lemma body_size_not_a_number_witness :
  _getResponseSizeFromHeaders (Some (<["Content-Length" := Some "unknown"]> ∅)) = Some NaN.
Proof.
  apply (body_size_not_a_number (<["Content-Length" := Some "unknown"]> ∅) "u" "nknown");
    [reflexivity | vm_compute; lia | reflexivity | reflexivity | discriminate | discriminate].
Defined.

End BodySizeFacts.

(** ** Further properties of the DOM breadcrumb handler *)
Section HandleDomCases.
Import HandleDom.

(** X15. When the target cannot be read (reading [event] throws, [event] is
    [undefined] or [null], or reading [target] throws), the breadcrumb has
    the message '<unknown>' and no node id: [targetNode] was never
    assigned. *)
Theorem handleDom_unreadable_target (now : Z) (event : Completion JsEvent) (name : string) :
  (exists e, event = Throw e) \/
  event = Normal EventNullish \/
  (exists e self, event = Normal (EventValue (Throw e) self)) ->
  handleDom now (DataValue event (Normal name)) =
  Normal (Some {| timestamp := (inject_Z now / 1000)%Q; type := "default";
                  category := "ui." +:+ name; message := "<unknown>";
                  data := {["nodeId" := None]} |}).
Proof. intros [[e ->] | [-> | (e & self & ->)]]; reflexivity. Qed.

(** X15, witness. *)
Lemma handleDom_unreadable_target_witness :
  handleDom 1700000000123
    (DataValue (Normal (EventValue (Throw "Permission denied") button)) (Normal "click")) =
  Normal (Some {| timestamp := (inject_Z 1700000000123 / 1000)%Q; type := "default";
                  category := "ui.click"; message := "<unknown>";
                  data := {["nodeId" := None]} |}).
Proof.
  apply (handleDom_unreadable_target 1700000000123
           (Normal (EventValue (Throw "Permission denied") button)) "click").
  right. right. by exists "Permission denied", button.
Defined.

(** X16. With a readable target, the node described is the target if it is
    truthy and the event itself otherwise. If its stringification throws,
    the message is '<unknown>' but the node id is still looked up; if it
    returns the empty string the result is [null]; otherwise the message is
    the stringification. The node id is [undefined] for a falsy node. *)
Theorem handleDom_on_event (now : Z) (target self : Node) (name : string) (id : Z) :
  let node := if is_truthy target then target else self in
  let nodeId := if is_truthy node then Some id else None in
  let breadcrumb text :=
    {| timestamp := (inject_Z now / 1000)%Q; type := "default";
       category := "ui." +:+ name; message := text;
       data := {["nodeId" := nodeId]} |} in
  mirror_getId node = Normal id ->
  handleDom now (DataValue (Normal (EventValue (Normal target) self)) (Normal name)) =
  match htmlTreeAsString node with
  | Throw _ => Normal (Some (breadcrumb "<unknown>"))
  | Normal EmptyString => Normal None
  | Normal text => Normal (Some (breadcrumb text))
  end.
Proof.
  intros node nodeId breadcrumb Hid. unfold handleDom, extract_target, try_block. simpl.
  fold node. unfold breadcrumb, nodeId.
  destruct (htmlTreeAsString node) as [[|c text]|e]; simpl; [done| |];
    destruct (is_truthy node); by rewrite ?Hid.
Qed.

(** X16, witness. *)
Lemma handleDom_on_event_witness :
  handleDom 1700000000123
    (DataValue (Normal (EventValue
                          (Normal {| is_truthy := false; htmlTreeAsString := Normal "";
                                     mirror_getId := Normal (-1) |})
                          hostile_node))
       (Normal "keypress")) =
  Normal (Some {| timestamp := (inject_Z 1700000000123 / 1000)%Q; type := "default";
                  category := "ui.keypress"; message := "<unknown>";
                  data := {["nodeId" := Some 23]} |}).
Proof.
  apply (handleDom_on_event 1700000000123
           {| is_truthy := false; htmlTreeAsString := Normal "";
              mirror_getId := Normal (-1) |}
           hostile_node "keypress" 23 eq_refl).
Defined.

(** X17. What the [try] block does not cover: once the target is a non-empty
    string, an exception raised while evaluating [handlerData.name] leaves
    [handleDom], and so does, after the name was evaluated, an exception of
    the mirror lookup on a truthy node. *)
Theorem handleDom_unguarded (now : Z) (handlerData : HandlerData) (e : Exn) :
  (extract_target handlerData).2 <> EmptyString ->
  (read_name handlerData = Throw e -> handleDom now handlerData = Throw e) /\
  (forall name node,
     read_name handlerData = Normal name ->
     (extract_target handlerData).1 = Some node ->
     is_truthy node = true ->
     mirror_getId node = Throw e ->
     handleDom now handlerData = Throw e).
Proof.
  intros Htarget. unfold handleDom.
  destruct (extract_target handlerData) as [targetNode target]. simpl in *.
  destruct target as [|c target]; [done|]. simpl. split.
  - by intros ->.
  - intros name node -> -> Htruthy Hid. by rewrite Htruthy, Hid.
Qed.

(** X17, witness. *)
Lemma handleDom_unguarded_witness :
  handleDom 1700000000123
    (DataValue (Normal (EventValue (Normal button) button)) (Throw "TypeError: Cannot convert a Symbol value to a string")) =
  Throw "TypeError: Cannot convert a Symbol value to a string".
Proof.
  apply (proj1 (handleDom_unguarded 1700000000123
                  (DataValue (Normal (EventValue (Normal button) button))
                     (Throw "TypeError: Cannot convert a Symbol value to a string"))
                  "TypeError: Cannot convert a Symbol value to a string"
                  ltac:(discriminate))).
  reflexivity.
Defined.

End HandleDomCases.
